(** * Declaration parser of the Cadence front end (runtime/parser2/declaration.go)

    A shallow embedding of the declaration-level parser: the dispatcher
    ([parseDeclarations], [parseDeclaration]), the access-modifier grammar
    ([parseAccess]), variable declarations ([parseVariableDeclaration],
    [parseTransfer]), import declarations ([parseImportDeclaration],
    [parseHexadecimalLocation]) and event declarations
    ([parseEventDeclaration]).

    Go panics are values of an error type threaded through a small result
    monad; the mutable parser [p] is passed explicitly from call to call. *)

From Stdlib Require Import List String Ascii ZArith NArith Bool Lia.
Import ListNotations.
Open Scope string_scope.
Open Scope list_scope.
Open Scope Z_scope.


(** ** Tokens (package lexer) *)

(** The token kinds the declaration parser switches on; every other kind
    of the lexer is [TokenOther]. *)
Inductive TokenType : Type :=
| TokenError
| TokenEOF
| TokenSpace
| TokenIdentifier
| TokenString
| TokenHexadecimalLiteral
| TokenComma
| TokenColon
| TokenSemicolon
| TokenParenOpen
| TokenParenClose
| TokenEqual
| TokenLeftArrow
| TokenLeftArrowExclamation
| TokenOther (code : nat).

Definition TokenType_eq_dec (a b : TokenType) : {a = b} + {a <> b}.
Proof. decide equality. apply Nat.eq_dec. Defined.

Definition TokenType_eqb (a b : TokenType) : bool :=
  if TokenType_eq_dec a b then true else false.

(** ast.Position *)
Record Position : Type := mkPosition { Offset : Z; Line : Z; Column : Z }.

(** The zero value of a Go [ast.Position]. *)
Definition zeroPosition : Position := mkPosition 0 0 0.

(** ast.Range *)
Record Range : Type := mkRange { StartPos : Position; EndPos : Position }.

(** The payload of a token is an [interface{}]: a string for identifiers
    and literals, nothing, or some other dynamic type. *)
Inductive TokenValue : Type :=
| ValueNil
| ValueString (s : string)
| ValueOpaque (tag : nat).

Record Token : Type := mkToken {
  Type_ : TokenType;
  Value : TokenValue;
  TokenRange : Range
}.

Definition TokenStartPos (t : Token) : Position := StartPos (TokenRange t).
Definition TokenEndPos (t : Token) : Position := EndPos (TokenRange t).

(** [Token.Is] *)
Definition Is (t : Token) (tokenType : TokenType) : bool :=
  TokenType_eqb (Type_ t) tokenType.

(** [v == keyword] for an [interface{}] [v] and a string constant:
    true exactly when the dynamic type is string and the texts agree. *)
Definition valueIs (v : TokenValue) (keyword : string) : bool :=
  match v with
  | ValueString s => String.eqb s keyword
  | _ => false
  end.

(** ** Keywords *)

(** Modelled from the spec: the keyword constants (their declarations are
    not part of the sources); section 6 lists the keyword texts. *)
Definition keywordLet : string := "let".
Definition keywordVar : string := "var".
Definition keywordFun : string := "fun".
Definition keywordImport : string := "import".
Definition keywordFrom : string := "from".
Definition keywordEvent : string := "event".
Definition keywordPriv : string := "priv".
Definition keywordPub : string := "pub".
Definition keywordAccess : string := "access".
Definition keywordAll : string := "all".
Definition keywordAccount : string := "account".
Definition keywordContract : string := "contract".
Definition keywordSelf : string := "self".
Definition keywordSet : string := "set".

(** ** Errors and results *)

(** Arguments of a [fmt.Errorf] call. *)
Inductive ErrorArg : Type :=
| ArgString (s : string)
| ArgTokenType (t : TokenType)
| ArgValue (v : TokenValue).

(** Errors of encoding/hex. *)
Inductive HexError : Type :=
| InvalidByteError (c : ascii)
| ErrLength.

(** What a panic carries. *)
Inductive ParseError : Type :=
| Errorf (format : string) (args : list ErrorArg)
| UnreachableError
| HexDecodeError (e : HexError)
| RuntimeError (msg : string)
| ExternalError (msg : string).

(** The outcome of running a piece of the parser: a value, a panic, or
    (for the unbounded loops, which run on fuel) fuel exhaustion. *)
Inductive Result (A : Type) : Type :=
| Ok (a : A)
| Panic (e : ParseError)
| OutOfFuel.

Arguments Ok {A} a.
Arguments Panic {A} e.
Arguments OutOfFuel {A}.

Definition bind {A B : Type} (r : Result A) (k : A -> Result B) : Result B :=
  match r with
  | Ok a => k a
  | Panic e => Panic e
  | OutOfFuel => OutOfFuel
  end.

Notation "x <- c ;; k" := (bind c (fun x => k))
  (at level 61, c at next level, right associativity).
Notation "' pat <- c ;; k" := (bind c (fun x => match x with pat => k end))
  (at level 61, pat pattern, c at next level, right associativity).

(** [v.(string)]: the type assertion panics on any other dynamic type. *)
Definition assertString (v : TokenValue) : Result string :=
  match v with
  | ValueString s => Ok s
  | _ => Panic (RuntimeError "interface conversion: interface {} is not string")
  end.

(** ** Hexadecimal locations (encoding/hex and [parseHexadecimalLocation]) *)

Module Hex.

(** A Go [byte] as an integer in [0, 256). *)
Definition byteOf (c : ascii) : Z := Z.of_N (N_of_ascii c).

(** uint8 wrap-around. *)
Definition wrap8 (z : Z) : Z := z mod 256.

(** hex.fromHexChar *)
Definition fromHexChar (c : ascii) : option Z :=
  let b := byteOf c in
  if (byteOf "0" <=? b) && (b <=? byteOf "9") then Some (wrap8 (b - byteOf "0"))
  else if (byteOf "a" <=? b) && (b <=? byteOf "f") then Some (wrap8 (b - byteOf "a" + 10))
  else if (byteOf "A" <=? b) && (b <=? byteOf "F") then Some (wrap8 (b - byteOf "A" + 10))
  else None.

(** hex.Decode: the bytes written to [dst] and the error, if any.
    Pairs are decoded left to right; the first invalid character stops
    the decoding, and a trailing unpaired valid digit is [ErrLength]. *)
Fixpoint Decode (src : list ascii) : list Z * option HexError :=
  match src with
  | p :: q :: rest =>
      match fromHexChar p with
      | None => ([], Some (InvalidByteError p))
      | Some a =>
          match fromHexChar q with
          | None => ([], Some (InvalidByteError q))
          | Some b =>
              let '(dst, err) := Decode rest in
              (Z.lor (wrap8 (Z.shiftl a 4)) b :: dst, err)
          end
      end
  | [p] =>
      match fromHexChar p with
      | None => ([], Some (InvalidByteError p))
      | Some _ => ([], Some ErrLength)
      end
  | [] => ([], None)
  end.

(** [s[2:]]: slicing past the end of the string panics. *)
Definition sliceFrom2 (s : string) : Result string :=
  match s with
  | String _ (String _ rest) => Ok rest
  | _ => Panic (RuntimeError "slice bounds out of range")
  end.

(** [strings.Replace(s, old, "", -1)] for a one-byte [old]: every
    occurrence of the byte is dropped. *)
Fixpoint removeAll (old : ascii) (s : string) : string :=
  match s with
  | EmptyString => EmptyString
  | String c rest =>
      if Ascii.eqb c old then removeAll old rest
      else String c (removeAll old rest)
  end.

(** parseHexadecimalLocation (declaration.go, lines 514-531).
    An [ast.AddressLocation] is a byte slice. *)
Definition parseHexadecimalLocation (literal : string) : Result (list Z) :=
  tail <- sliceFrom2 literal ;;
  let bytes := list_ascii_of_string (removeAll "_" tail) in
  let length := Z.of_nat (List.length bytes) in
  let bytes := if length mod 2 =? 1 then "0"%char :: bytes else bytes in
  match Decode bytes with
  | (address, None) => Ok address
  | (_, Some err) => Panic (HexDecodeError err)
  end.

(** *** The decoding as the specification words it *)

(** The value of a hexadecimal digit: its index among the sixteen
    digits, in either letter case. *)
Fixpoint indexOf (c : ascii) (digits : list ascii) : option nat :=
  match digits with
  | [] => None
  | d :: ds => if Ascii.eqb c d then Some O else option_map S (indexOf c ds)
  end.

Definition spec_digitValue (c : ascii) : option Z :=
  match indexOf c (list_ascii_of_string "0123456789abcdef") with
  | Some n => Some (Z.of_nat n)
  | None =>
      match indexOf c (list_ascii_of_string "0123456789ABCDEF") with
      | Some n => Some (Z.of_nat n)
      | None => None
      end
  end.

(** Pairs of hex digits, most significant digit first. *)
Fixpoint spec_decodePairs (digits : list ascii) : option (list Z) :=
  match digits with
  | [] => Some []
  | [_] => None
  | hi :: lo :: rest =>
      match spec_digitValue hi, spec_digitValue lo, spec_decodePairs rest with
      | Some h, Some l, Some bs => Some (16 * h + l :: bs)
      | _, _, _ => None
      end
  end.

(** Strip the two-character prefix, remove the digit separators,
    left-pad an odd digit count with one ['0'], decode the pairs. *)
Definition spec_hexLocation (literal : string) : option (list Z) :=
  let chars := list_ascii_of_string literal in
  if (List.length chars <? 2)%nat then None
  else
    let digits :=
      filter (fun c => negb (Ascii.eqb c "_")) (skipn 2 chars) in
    let padded :=
      if Nat.odd (List.length digits) then "0"%char :: digits else digits in
    spec_decodePairs padded.

(** A well-formed hexadecimal literal: a two-character prefix followed
    by hexadecimal digits and digit separators only. *)
Definition isHexDigit (c : ascii) : bool :=
  match spec_digitValue c with Some _ => true | None => false end.

Definition isHexadecimalLiteral (literal : string) : bool :=
  match list_ascii_of_string literal with
  | _ :: _ :: rest =>
      forallb (fun c => isHexDigit c || Ascii.eqb c "_") rest
  | _ => false
  end.

End Hex.

(** ** Syntax trees (package ast) *)

(** ast.Access *)
Inductive Access : Type :=
| AccessNotSpecified
| AccessPrivate
| AccessPublic
| AccessPublicSettable
| AccessAccount
| AccessContract.

Definition Access_eqb (a b : Access) : bool :=
  match a, b with
  | AccessNotSpecified, AccessNotSpecified
  | AccessPrivate, AccessPrivate
  | AccessPublic, AccessPublic
  | AccessPublicSettable, AccessPublicSettable
  | AccessAccount, AccessAccount
  | AccessContract, AccessContract => true
  | _, _ => false
  end.

(** ast.TransferOperation; [TransferOperationUnknown] is the zero value. *)
Inductive TransferOperation : Type :=
| TransferOperationUnknown
| TransferOperationCopy
| TransferOperationMove
| TransferOperationMoveForced.

Definition TransferOperation_eqb (a b : TransferOperation) : bool :=
  match a, b with
  | TransferOperationUnknown, TransferOperationUnknown
  | TransferOperationCopy, TransferOperationCopy
  | TransferOperationMove, TransferOperationMove
  | TransferOperationMoveForced, TransferOperationMoveForced => true
  | _, _ => false
  end.

(** ast.Transfer *)
Record Transfer : Type := mkTransfer {
  Transfer_Operation : TransferOperation;
  Transfer_Pos : Position
}.

(** ast.Identifier *)
Record Identifier : Type := mkIdentifier {
  Identifier_Identifier : string;
  Identifier_Pos : Position
}.

(** The zero value of [ast.Identifier]. *)
Definition zeroIdentifier : Identifier := mkIdentifier "" zeroPosition.

(** ast.Location: a nil interface is [None] in the fields that hold one.
    No identifier location exists yet (declaration.go, lines 339-340). *)
Inductive Location : Type :=
| StringLocation (s : string)
| AddressLocation (address : list Z).

(** ast.ImportDeclaration *)
Record ImportDeclaration : Type := mkImportDeclaration {
  ImportDeclaration_Identifiers : list Identifier;
  ImportDeclaration_Location : option Location;
  ImportDeclaration_Range : Range;
  ImportDeclaration_LocationPos : Position
}.

(** common.CompositeKind *)
Inductive CompositeKind : Type :=
| CompositeKindUnknown
| CompositeKindStructure
| CompositeKindResource
| CompositeKindContract
| CompositeKindEvent.

(** common.DeclarationKind, as far as special functions go. *)
Inductive DeclarationKind : Type :=
| DeclarationKindUnknown
| DeclarationKindInitializer
| DeclarationKindDestructor
| DeclarationKindPrepare
| DeclarationKindExecute.

(** The node types built by the collaborating parsers, which this file
    only stores: expressions, type annotations, parameters, function
    blocks, and the two member kinds an event never has. *)
Class Syntax : Type := {
  Expression : Type;
  TypeAnnotation : Type;
  Parameter_ : Type;
  FunctionBlock : Type;
  FieldDeclaration : Type;
  InterfaceDeclaration : Type
}.

Section Trees.

Context {syn : Syntax}.

(** ast.ParameterList *)
Record ParameterList : Type := mkParameterList {
  ParameterList_Parameters : list Parameter_;
  ParameterList_Range : Range
}.

(** ast.VariableDeclaration. Pointer and interface fields that may be
    nil are options. *)
Record VariableDeclaration : Type := mkVariableDeclaration {
  VariableDeclaration_Access : Access;
  VariableDeclaration_IsConstant : bool;
  VariableDeclaration_Identifier : Identifier;
  VariableDeclaration_TypeAnnotation : option TypeAnnotation;
  VariableDeclaration_Value : Expression;
  VariableDeclaration_Transfer : option Transfer;
  VariableDeclaration_StartPos : Position;
  VariableDeclaration_SecondTransfer : option Transfer;
  VariableDeclaration_SecondValue : option Expression
}.

(** ast.FunctionDeclaration. A composite literal leaves the fields it
    does not name at their zero values. *)
Record FunctionDeclaration : Type := mkFunctionDeclaration {
  FunctionDeclaration_Access : Access;
  FunctionDeclaration_Identifier : Identifier;
  FunctionDeclaration_ParameterList : option ParameterList;
  FunctionDeclaration_ReturnTypeAnnotation : option TypeAnnotation;
  FunctionDeclaration_FunctionBlock : option FunctionBlock;
  FunctionDeclaration_StartPos : Position
}.

(** ast.SpecialFunctionDeclaration *)
Record SpecialFunctionDeclaration : Type := mkSpecialFunctionDeclaration {
  SpecialFunctionDeclaration_DeclarationKind : DeclarationKind;
  SpecialFunctionDeclaration_FunctionDeclaration : option FunctionDeclaration
}.

(** ast.CompositeDeclaration and ast.Members; composites nest through
    the member list. *)
Inductive CompositeDeclaration : Type :=
| mkCompositeDeclaration
    (access : Access)
    (compositeKind : CompositeKind)
    (identifier : Identifier)
    (members : option Members)
    (range : Range)
with Members : Type :=
| mkMembers
    (fields : list FieldDeclaration)
    (specialFunctions : list SpecialFunctionDeclaration)
    (functions : list FunctionDeclaration)
    (interfaceDeclarations : list InterfaceDeclaration)
    (compositeDeclarations : list CompositeDeclaration).

Definition CompositeDeclaration_Access (d : CompositeDeclaration) : Access :=
  match d with mkCompositeDeclaration a _ _ _ _ => a end.
Definition CompositeDeclaration_CompositeKind (d : CompositeDeclaration) : CompositeKind :=
  match d with mkCompositeDeclaration _ k _ _ _ => k end.
Definition CompositeDeclaration_Identifier (d : CompositeDeclaration) : Identifier :=
  match d with mkCompositeDeclaration _ _ i _ _ => i end.
Definition CompositeDeclaration_Members (d : CompositeDeclaration) : option Members :=
  match d with mkCompositeDeclaration _ _ _ m _ => m end.
Definition CompositeDeclaration_Range (d : CompositeDeclaration) : Range :=
  match d with mkCompositeDeclaration _ _ _ _ r => r end.

Definition Members_Fields (m : Members) : list FieldDeclaration :=
  match m with mkMembers f _ _ _ _ => f end.
Definition Members_SpecialFunctions (m : Members) : list SpecialFunctionDeclaration :=
  match m with mkMembers _ s _ _ _ => s end.
Definition Members_Functions (m : Members) : list FunctionDeclaration :=
  match m with mkMembers _ _ f _ _ => f end.
Definition Members_InterfaceDeclarations (m : Members) : list InterfaceDeclaration :=
  match m with mkMembers _ _ _ i _ => i end.
Definition Members_CompositeDeclarations (m : Members) : list CompositeDeclaration :=
  match m with mkMembers _ _ _ _ c => c end.

(** ast.Declaration: the interface, as the sum of the node types this
    parser returns through it. *)
Inductive Declaration : Type :=
| VariableDecl (d : VariableDeclaration)
| FunctionDecl (d : FunctionDeclaration)
| ImportDecl (d : ImportDeclaration)
| CompositeDecl (d : CompositeDeclaration).

End Trees.

(** ** The parser's collaborators *)

(** The token cursor: the methods of [*parser] this file calls. The parser
    is mutated in place in the source; here every operation returns the
    parser it leaves behind. *)
Class Cursor (parser : Type) : Type := {
  (** [p.current] *)
  current : parser -> Token;
  (** [p.next()] advances to the next token. *)
  next : parser -> parser;
  (** [p.skipSpaceAndComments(skipNewlines)] *)
  skipSpaceAndComments : bool -> parser -> parser;
  (** [p.mustOne(tokenType)] requires and consumes a token of the kind. *)
  mustOne : TokenType -> parser -> Result (Token * parser);
  (** [p.report(errs...)] records soft diagnostics. *)
  report : list ParseError -> parser -> parser
}.

(** The sub-parsers and helpers defined elsewhere in the package. *)
Class Collaborators {syn : Syntax} (parser : Type) : Type := {
  tokenToIdentifier : Token -> Result Identifier;
  Identifier_EndPosition : Identifier -> Position;
  lowestBindingPower : Z;
  parseExpression : parser -> Z -> Result (Expression * parser);
  parseTypeAnnotation : parser -> Result (TypeAnnotation * parser);
  parseParameterList : parser -> Result (ParameterList * parser);
  parseFunctionDeclaration :
    parser -> Access -> option Position -> Result (FunctionDeclaration * parser);
  parseStringLiteral : string -> string * list ParseError
}.

(** ** The declaration parser (declaration.go) *)

Section Parser.

Context {syn : Syntax} {parser : Type}.
Context {cursor : Cursor parser} {collaborators : Collaborators parser}.

(** parseAccess (lines 101-195) *)
Definition parseAccess (p : parser) : Result (Access * parser) :=
  let v := Value (current p) in
  if valueIs v keywordPriv then
    let p := next p in
    Ok (AccessPrivate, p)
  else if valueIs v keywordPub then
    let p := next p in
    let p := skipSpaceAndComments true p in
    if negb (Is (current p) TokenParenOpen) then
      Ok (AccessPublic, p)
    else
      let p := next p in
      let p := skipSpaceAndComments true p in
      if negb (Is (current p) TokenIdentifier) then
        Panic (Errorf "expected keyword %q, got %s"
                 [ArgString keywordSet; ArgTokenType (Type_ (current p))])
      else if negb (valueIs (Value (current p)) keywordSet) then
        Panic (Errorf "expected keyword %q, got %q"
                 [ArgString keywordSet; ArgValue (Value (current p))])
      else
        let p := next p in
        let p := skipSpaceAndComments true p in
        '(_, p) <- mustOne TokenParenClose p ;;
        Ok (AccessPublicSettable, p)
  else if valueIs v keywordAccess then
    let p := next p in
    let p := skipSpaceAndComments true p in
    '(_, p) <- mustOne TokenParenOpen p ;;
    let p := skipSpaceAndComments true p in
    if negb (Is (current p) TokenIdentifier) then
      Panic (Errorf "expected keyword %q, %q, %q, or %q, got %s"
               [ArgString keywordAll; ArgString keywordAccount;
                ArgString keywordContract; ArgString keywordSelf;
                ArgTokenType (Type_ (current p))])
    else
      let w := Value (current p) in
      access <-
        (if valueIs w keywordAll then Ok AccessPublic
         else if valueIs w keywordAccount then Ok AccessAccount
         else if valueIs w keywordContract then Ok AccessContract
         else if valueIs w keywordSelf then Ok AccessPrivate
         else
           Panic (Errorf "expected keyword %q, %q, %q, or %q, got %q"
                    [ArgString keywordAll; ArgString keywordAccount;
                     ArgString keywordContract; ArgString keywordSelf;
                     ArgValue w])) ;;
      let p := next p in
      let p := skipSpaceAndComments true p in
      '(_, p) <- mustOne TokenParenClose p ;;
      Ok (access, p)
  else
    Panic UnreachableError.

(** parseTransfer (lines 273-299): never panics. *)
Definition parseTransfer (p : parser) : option Transfer * parser :=
  let operation :=
    match Type_ (current p) with
    | TokenEqual => TransferOperationCopy
    | TokenLeftArrow => TransferOperationMove
    | TokenLeftArrowExclamation => TransferOperationMoveForced
    | _ => TransferOperationUnknown
    end in
  if TransferOperation_eqb operation TransferOperationUnknown then
    (None, p)
  else
    let pos := TokenStartPos (current p) in
    let p := next p in
    (Some (mkTransfer operation pos), p).

(** parseVariableDeclaration (lines 206-267) *)
Definition parseVariableDeclaration
    (p : parser) (access : Access) (accessPos : option Position)
  : Result (VariableDeclaration * parser) :=
  let startPos :=
    match accessPos with
    | Some pos => pos
    | None => TokenStartPos (current p)
    end in
  let isLet := valueIs (Value (current p)) keywordLet in
  let p := next p in
  let p := skipSpaceAndComments true p in
  if negb (Is (current p) TokenIdentifier) then
    Panic (Errorf "expected identifier after start of variable declaration, got %s"
             [ArgTokenType (Type_ (current p))])
  else
    identifier <- tokenToIdentifier (current p) ;;
    let p := next p in
    let p := skipSpaceAndComments true p in
    '(typeAnnotation, p) <-
      (if Is (current p) TokenColon then
         let p := next p in
         let p := skipSpaceAndComments true p in
         '(ty, p) <- parseTypeAnnotation p ;;
         Ok (Some ty, p)
       else Ok (None, p)) ;;
    let p := skipSpaceAndComments true p in
    let '(transfer, p) := parseTransfer p in
    match transfer with
    | None => Panic (Errorf "expected transfer" [])
    | Some _ =>
        '(value, p) <- parseExpression p lowestBindingPower ;;
        let p := skipSpaceAndComments true p in
        let '(secondTransfer, p) := parseTransfer p in
        '(secondValue, p) <-
          match secondTransfer with
          | Some _ =>
              '(e, p) <- parseExpression p lowestBindingPower ;;
              Ok (Some e, p)
          | None => Ok (None, p)
          end ;;
        Ok ({| VariableDeclaration_Access := access;
               VariableDeclaration_IsConstant := isLet;
               VariableDeclaration_Identifier := identifier;
               VariableDeclaration_TypeAnnotation := typeAnnotation;
               VariableDeclaration_Value := value;
               VariableDeclaration_Transfer := transfer;
               VariableDeclaration_StartPos := startPos;
               VariableDeclaration_SecondTransfer := secondTransfer;
               VariableDeclaration_SecondValue := secondValue |}, p)
    end.

(** *** Import declarations *)

(** The variables of [parseImportDeclaration] that its closures assign. *)
Record ImportState : Type := mkImportState {
  identifiers : list Identifier;
  location : option Location;
  locationPos : Position;
  endPos : Position
}.

(** The closure [parseStringOrAddressLocation] (lines 318-336) *)
Definition parseStringOrAddressLocation (st : ImportState) (p : parser)
  : Result (ImportState * parser) :=
  let locationPos' := TokenStartPos (current p) in
  let endPos' := TokenEndPos (current p) in
  '(location', p) <-
    match Type_ (current p) with
    | TokenString =>
        literal <- assertString (Value (current p)) ;;
        let '(parsedString, errs) := parseStringLiteral literal in
        let p := report errs p in
        Ok (StringLocation parsedString, p)
    | TokenHexadecimalLiteral =>
        literal <- assertString (Value (current p)) ;;
        address <- Hex.parseHexadecimalLocation literal ;;
        Ok (AddressLocation address, p)
    | _ => Panic UnreachableError
    end ;;
  let p := next p in
  Ok (mkImportState (identifiers st) (Some location') locationPos' endPos', p).

(** The closure [setIdentifierLocation] (lines 338-343): the location
    itself is not assigned. *)
Definition setIdentifierLocation (identifier : Identifier) (st : ImportState)
  : ImportState :=
  mkImportState (identifiers st) (location st)
    (Identifier_Pos identifier) (Identifier_EndPosition identifier).

(** The closure [parseLocation] (lines 345-362) *)
Definition parseLocation (st : ImportState) (p : parser)
  : Result (ImportState * parser) :=
  match Type_ (current p) with
  | TokenString | TokenHexadecimalLiteral => parseStringOrAddressLocation st p
  | t =>
      Panic (Errorf
        "unexpected token in import declaration: got %s, expected string, address, or identifier"
        [ArgTokenType t])
  end.

(** The closure [parseMoreIdentifiers] (lines 364-425): the loop
    [for !atEnd], entered with [atEnd] false; the branch that sets
    [atEnd] is the one that leaves the loop. *)
Fixpoint parseMoreIdentifiers_loop
    (fuel : nat) (expectCommaOrFrom : bool) (st : ImportState) (p : parser)
  : Result (ImportState * parser) :=
  match fuel with
  | O => OutOfFuel
  | S fuel =>
      let p := next p in
      let p := skipSpaceAndComments true p in
      match Type_ (current p) with
      | TokenComma =>
          if negb expectCommaOrFrom then
            Panic (Errorf "expected %s or keyword %q, got %s"
                     [ArgTokenType TokenIdentifier; ArgString keywordFrom;
                      ArgTokenType (Type_ (current p))])
          else parseMoreIdentifiers_loop fuel false st p
      | TokenIdentifier =>
          if valueIs (Value (current p)) keywordFrom then
            if negb expectCommaOrFrom then
              Panic (Errorf "expected %s, got keyword %q"
                       [ArgTokenType TokenIdentifier;
                        ArgValue (Value (current p))])
            else
              let p := next p in
              let p := skipSpaceAndComments true p in
              parseLocation st p
          else
            identifier <- tokenToIdentifier (current p) ;;
            let st :=
              mkImportState (identifiers st ++ [identifier])
                (location st) (locationPos st) (endPos st) in
            parseMoreIdentifiers_loop fuel true st p
      | TokenEOF =>
          Panic (Errorf "unexpected end in import declaration: expected %s or %s"
                   [ArgTokenType TokenIdentifier; ArgTokenType TokenComma])
      | t =>
          Panic (Errorf
            "unexpected token in import declaration: got %s, expected keyword %q or %s"
            [ArgTokenType t; ArgString keywordFrom; ArgTokenType TokenComma])
      end
  end.

Definition parseMoreIdentifiers (fuel : nat) (st : ImportState) (p : parser)
  : Result (ImportState * parser) :=
  parseMoreIdentifiers_loop fuel false st p.

(** The closure [maybeParseFromIdentifier] (lines 427-454) *)
Definition maybeParseFromIdentifier
    (identifier : Identifier) (st : ImportState) (p : parser)
  : Result (ImportState * parser) :=
  if valueIs (Value (current p)) keywordFrom then
    let st :=
      mkImportState (identifiers st ++ [identifier])
        (location st) (locationPos st) (endPos st) in
    let p := next p in
    let p := skipSpaceAndComments true p in
    parseLocation st p
  else
    Panic (Errorf "unexpected identifier in import declaration: got %q, expected %q"
             [ArgValue (Value (current p)); ArgString keywordFrom]).

(** parseImportDeclaration (lines 308-512); [fuel] bounds the loop of
    [parseMoreIdentifiers]. *)
Definition parseImportDeclaration (fuel : nat) (p : parser)
  : Result (ImportDeclaration * parser) :=
  let startPosition := TokenStartPos (current p) in
  let st := mkImportState [] None zeroPosition zeroPosition in
  let p := next p in
  let p := skipSpaceAndComments true p in
  '(st, p) <-
    match Type_ (current p) with
    | TokenString | TokenHexadecimalLiteral =>
        parseStringOrAddressLocation st p
    | TokenIdentifier =>
        identifier <- tokenToIdentifier (current p) ;;
        let p := next p in
        let p := skipSpaceAndComments true p in
        match Type_ (current p) with
        | TokenComma =>
            let st :=
              mkImportState (identifiers st ++ [identifier])
                (location st) (locationPos st) (endPos st) in
            parseMoreIdentifiers fuel st p
        | TokenIdentifier => maybeParseFromIdentifier identifier st p
        | TokenEOF => Ok (setIdentifierLocation identifier st, p)
        | t =>
            Panic (Errorf
              "unexpected token in import declaration: got %s, expected keyword %q or %s"
              [ArgTokenType t; ArgString keywordFrom; ArgTokenType TokenComma])
        end
    | TokenEOF =>
        Panic (Errorf
          "unexpected end in import declaration: expected string, address, or identifier"
          [])
    | t =>
        Panic (Errorf
          "unexpected token in import declaration: got %s, expected string, address, or identifier"
          [ArgTokenType t])
    end ;;
  Ok ({| ImportDeclaration_Identifiers := identifiers st;
         ImportDeclaration_Location := location st;
         ImportDeclaration_Range := mkRange startPosition (endPos st);
         ImportDeclaration_LocationPos := locationPos st |}, p).

(** *** Event declarations *)

(** parseEventDeclaration (lines 537-587) *)
Definition parseEventDeclaration
    (p : parser) (access : Access) (accessPos : option Position)
  : Result (CompositeDeclaration * parser) :=
  let startPos :=
    match accessPos with
    | Some pos => pos
    | None => TokenStartPos (current p)
    end in
  let p := next p in
  let p := skipSpaceAndComments true p in
  if negb (Is (current p) TokenIdentifier) then
    Panic (Errorf "expected identifier after start of event declaration, got %s"
             [ArgTokenType (Type_ (current p))])
  else
    name <- assertString (Value (current p)) ;;
    let identifier := mkIdentifier name (TokenStartPos (current p)) in
    let p := next p in
    '(parameterList, p) <- parseParameterList p ;;
    let initializer :=
      {| SpecialFunctionDeclaration_DeclarationKind := DeclarationKindInitializer;
         SpecialFunctionDeclaration_FunctionDeclaration :=
           Some {| FunctionDeclaration_Access := AccessNotSpecified;
                   FunctionDeclaration_Identifier := zeroIdentifier;
                   FunctionDeclaration_ParameterList := Some parameterList;
                   FunctionDeclaration_ReturnTypeAnnotation := None;
                   FunctionDeclaration_FunctionBlock := None;
                   FunctionDeclaration_StartPos :=
                     StartPos (ParameterList_Range parameterList) |} |} in
    Ok (mkCompositeDeclaration
          access
          CompositeKindEvent
          identifier
          (Some (mkMembers [] [initializer] [] [] []))
          (mkRange startPos (EndPos (ParameterList_Range parameterList))), p).

(** *** The dispatcher *)

(** The loop of parseDeclaration (lines 55-91), [iterations] times at
    most; [fuel] is handed to [parseImportDeclaration]. A typed pointer
    stored in the interface is never the nil interface: only the final
    [return nil] yields [None]. *)
Fixpoint parseDeclaration_loop
    (iterations fuel : nat) (access : Access) (accessPos : option Position)
    (p : parser)
  : Result (option Declaration * parser) :=
  match iterations with
  | O => OutOfFuel
  | S iterations =>
      let p := skipSpaceAndComments true p in
      match Type_ (current p) with
      | TokenIdentifier =>
          let v := Value (current p) in
          if valueIs v keywordLet || valueIs v keywordVar then
            '(d, p) <- parseVariableDeclaration p access accessPos ;;
            Ok (Some (VariableDecl d), p)
          else if valueIs v keywordFun then
            '(d, p) <- parseFunctionDeclaration p access accessPos ;;
            Ok (Some (FunctionDecl d), p)
          else if valueIs v keywordImport then
            '(d, p) <- parseImportDeclaration fuel p ;;
            Ok (Some (ImportDecl d), p)
          else if valueIs v keywordEvent then
            '(d, p) <- parseEventDeclaration p access accessPos ;;
            Ok (Some (CompositeDecl d), p)
          else if valueIs v keywordPriv || valueIs v keywordPub
                  || valueIs v keywordAccess then
            if negb (Access_eqb access AccessNotSpecified) then
              Panic (Errorf "unexpected access modifier" [])
            else
              let pos := TokenStartPos (current p) in
              '(access, p) <- parseAccess p ;;
              parseDeclaration_loop iterations fuel access (Some pos) p
          else Ok (None, p)
      | _ => Ok (None, p)
      end
  end.

(** parseDeclaration: the loop runs at most twice, since [parseAccess]
    never returns [AccessNotSpecified] ([parseDeclaration_loop_bound]
    below). *)
Definition parseDeclaration (fuel : nat) (p : parser)
  : Result (option Declaration * parser) :=
  parseDeclaration_loop 2 fuel AccessNotSpecified None p.

(** The loop of parseDeclarations (lines 32-53) *)
Fixpoint parseDeclarations_loop
    (fuel : nat) (endTokenType : TokenType)
    (declarations : list Declaration) (p : parser)
  : Result (list Declaration * parser) :=
  match fuel with
  | O => OutOfFuel
  | S fuel =>
      let p := skipSpaceAndComments true p in
      let t := Type_ (current p) in
      if TokenType_eqb t TokenSemicolon then
        let p := next p in
        parseDeclarations_loop fuel endTokenType declarations p
      else if TokenType_eqb t endTokenType || TokenType_eqb t TokenEOF then
        Ok (declarations, p)
      else
        '(declaration, p) <- parseDeclaration fuel p ;;
        match declaration with
        | None => Ok (declarations, p)
        | Some d =>
            parseDeclarations_loop fuel endTokenType (declarations ++ [d]) p
        end
  end.

(** parseDeclarations: the named result starts as the nil slice. *)
Definition parseDeclarations (fuel : nat) (p : parser) (endTokenType : TokenType)
  : Result (list Declaration * parser) :=
  parseDeclarations_loop fuel endTokenType [] p.

End Parser.

(** ** A list-backed instance of the collaborators *)

Module ListParser.

(** The state of the parser: the current token, the tokens still to
    come, and the diagnostics reported so far. *)
Record parser : Type := mkParser {
  current : Token;
  tokens : list Token;
  errors : list ParseError
}.

Definition eofToken : Token :=
  mkToken TokenEOF ValueNil (mkRange zeroPosition zeroPosition).

(** Modelled from the spec: the token cursor (its source file is not part
    of the sources). It exposes the current token and an advance
    operation; once the token stream is exhausted the current token is
    end-of-input. *)
Definition next (p : parser) : parser :=
  match tokens p with
  | [] => mkParser eofToken [] (errors p)
  | t :: ts => mkParser t ts (errors p)
  end.

Fixpoint skipFrom (cur : Token) (ts : list Token) : Token * list Token :=
  match Type_ cur with
  | TokenSpace =>
      match ts with
      | [] => (eofToken, [])
      | t :: ts' => skipFrom t ts'
      end
  | _ => (cur, ts)
  end.

(** Modelled from the spec: skipping whitespace in front of the next
    significant token. Every call of this file passes [true] for
    [skipNewlines]; comments are whitespace tokens here. *)
Definition skipSpaceAndComments (skipNewlines : bool) (p : parser) : parser :=
  let '(cur, ts) := skipFrom (current p) (tokens p) in
  mkParser cur ts (errors p).

(** Modelled from the spec: a required token; its absence is a fatal
    error. *)
Definition mustOne (tokenType : TokenType) (p : parser) : Result (Token * parser) :=
  let t := current p in
  if Is t tokenType then Ok (t, next p)
  else Panic (Errorf "expected token %s" [ArgTokenType tokenType]).

(** Modelled from the spec: soft diagnostics are accumulated. *)
Definition report (errs : list ParseError) (p : parser) : parser :=
  mkParser (current p) (tokens p) (errors p ++ errs).

#[global] Instance cursor : Cursor parser :=
  Build_Cursor parser current next skipSpaceAndComments mustOne report.

(** The parser positioned on the first token of a token list. *)
Definition start (ts : list Token) : parser :=
  next (mkParser eofToken ts []).

(** Stand-ins for the node types of the collaborating parsers: an
    expression or a type annotation is the single token it was read from,
    a parameter is its name. *)
#[global] Instance syntax : Syntax := {|
  Expression := Token;
  TypeAnnotation := Token;
  Parameter_ := Identifier;
  FunctionBlock := unit;
  FieldDeclaration := Empty_set;
  InterfaceDeclaration := Empty_set
|}.

(** Stand-in for the helper of the package: the identifier a token
    names, at the token's start position. *)
Definition tokenToIdentifier (t : Token) : Result Identifier :=
  name <- assertString (Value t) ;;
  Ok (mkIdentifier name (TokenStartPos t)).

(** Stand-in for [Identifier.EndPosition]: the position of the last
    character of the name. *)
Definition Identifier_EndPosition (i : Identifier) : Position :=
  let shift := Z.of_nat (String.length (Identifier_Identifier i)) - 1 in
  let pos := Identifier_Pos i in
  mkPosition (Offset pos + shift) (Line pos) (Column pos + shift).

(** A one-token expression parser. *)
Definition parseExpression (p : parser) (rightBindingPower : Z)
  : Result (Token * parser) :=
  let p := skipSpaceAndComments true p in
  match Type_ (current p) with
  | TokenIdentifier | TokenString | TokenHexadecimalLiteral | TokenOther _ =>
      Ok (current p, next p)
  | _ => Panic (ExternalError "expected expression")
  end.

(** A one-token type-annotation parser. *)
Definition parseTypeAnnotation (p : parser) : Result (Token * parser) :=
  if Is (current p) TokenIdentifier then Ok (current p, next p)
  else Panic (ExternalError "expected type").

(** A parameter-list parser for the empty list [()]. *)
Definition parseParameterList (p : parser) : Result (ParameterList * parser) :=
  let p := skipSpaceAndComments true p in
  '(open, p) <- mustOne TokenParenOpen p ;;
  let p := skipSpaceAndComments true p in
  '(close, p) <- mustOne TokenParenClose p ;;
  Ok (mkParameterList [] (mkRange (TokenStartPos open) (TokenEndPos close)), p).

Definition parseFunctionDeclaration
    (p : parser) (access : Access) (accessPos : option Position)
  : Result (FunctionDeclaration * parser) :=
  Panic (ExternalError "function declarations are parsed elsewhere").

Definition parseStringLiteral (literal : string) : string * list ParseError :=
  (literal, []).

#[global] Instance collaborators : Collaborators parser :=
  Build_Collaborators syntax parser
    tokenToIdentifier Identifier_EndPosition 0
    parseExpression parseTypeAnnotation parseParameterList
    parseFunctionDeclaration parseStringLiteral.

(** Tokens at consecutive columns of one line. *)
Definition at_ (column : Z) (width : Z) : Range :=
  mkRange (mkPosition column 1 column)
          (mkPosition (column + width - 1) 1 (column + width - 1)).

Definition ident (name : string) (column : Z) : Token :=
  mkToken TokenIdentifier (ValueString name)
    (at_ column (Z.of_nat (String.length name))).

Definition punct (t : TokenType) (column : Z) : Token :=
  mkToken t ValueNil (at_ column 1).

Definition space (column : Z) : Token :=
  mkToken TokenSpace (ValueOpaque 0) (at_ column 1).

End ListParser.

(** ** Vocabulary of the statements *)

(** The three transfer operators. *)
Definition isTransferTokenType (t : TokenType) : bool :=
  match t with
  | TokenEqual | TokenLeftArrow | TokenLeftArrowExclamation => true
  | _ => false
  end.

(** Keywords are identifier tokens with a reserved text. *)
Definition isKeyword (t : Token) (keyword : string) : bool :=
  Is t TokenIdentifier && valueIs (Value t) keyword.

Definition isAccessModifierKeyword (t : Token) : bool :=
  isKeyword t keywordPriv || isKeyword t keywordPub || isKeyword t keywordAccess.

Definition isDeclarationKeyword (t : Token) : bool :=
  isKeyword t keywordLet || isKeyword t keywordVar || isKeyword t keywordFun
  || isKeyword t keywordImport || isKeyword t keywordEvent.

Section Runs.

Context {syn : Syntax} {parser : Type}.
Context {cursor : Cursor parser} {collaborators : Collaborators parser}.

(** The parser moved on to the next significant token. *)
Definition advance (p : parser) : parser :=
  skipSpaceAndComments true (next p).

(** [TypeAnnotationEndsAt p q]: the optional type annotation of a
    variable declaration, looked for on [p], leaves the parser at [q]:
    either there is no colon and nothing is consumed, or the colon is
    followed by a type annotation that the type-annotation parser
    accepts. *)
Definition TypeAnnotationEndsAt (p q : parser) : Prop :=
  (Is (current p) TokenColon = false /\ q = p)
  \/ (Is (current p) TokenColon = true
      /\ exists ty : TypeAnnotation, parseTypeAnnotation (advance p) = Ok (ty, q)).

(** [FatalAt endTokenType n p e]: the declaration-list loop, started on
    [p], hits the fatal error [e] within [n] iterations: after skipped
    semicolons and successfully parsed declarations, a call of the
    single-declaration parser panics with [e]. *)
Inductive FatalAt (endTokenType : TokenType) : nat -> parser -> ParseError -> Prop :=
| FatalHere (fuel : nat) (p : parser) (e : ParseError) :
    Type_ (current (skipSpaceAndComments true p)) <> TokenSemicolon ->
    Type_ (current (skipSpaceAndComments true p)) <> endTokenType ->
    Type_ (current (skipSpaceAndComments true p)) <> TokenEOF ->
    parseDeclaration fuel (skipSpaceAndComments true p) = Panic e ->
    FatalAt endTokenType (S fuel) p e
| FatalAfterSemicolon (fuel : nat) (p : parser) (e : ParseError) :
    Type_ (current (skipSpaceAndComments true p)) = TokenSemicolon ->
    FatalAt endTokenType fuel (next (skipSpaceAndComments true p)) e ->
    FatalAt endTokenType (S fuel) p e
| FatalAfterDeclaration (fuel : nat) (p p' : parser) (d : Declaration) (e : ParseError) :
    Type_ (current (skipSpaceAndComments true p)) <> TokenSemicolon ->
    Type_ (current (skipSpaceAndComments true p)) <> endTokenType ->
    Type_ (current (skipSpaceAndComments true p)) <> TokenEOF ->
    parseDeclaration fuel (skipSpaceAndComments true p) = Ok (Some d, p') ->
    FatalAt endTokenType fuel p' e ->
    FatalAt endTokenType (S fuel) p e.

End Runs.

(** ** Sample token lists *)

Module Sample.

Import ListParser.

(** [import foo] *)
Definition import_foo : list Token :=
  [ident "import" 1; space 7; ident "foo" 8].

(** [import 0xA_B] *)
Definition import_address : list Token :=
  [ident "import" 1; space 7;
   mkToken TokenHexadecimalLiteral (ValueString "0xA_B") (at_ 8 5)].

(** [access priv let] *)
Definition access_priv : list Token :=
  [ident "access" 1; space 7; ident "priv" 8; space 12; ident "let" 13].

(** [pub priv let] *)
Definition pub_priv : list Token :=
  [ident "pub" 1; space 4; ident "priv" 5; space 9; ident "let" 10].

(** [pub foo] *)
Definition pub_foo : list Token :=
  [ident "pub" 1; space 4; ident "foo" 5].

(** [let x = y; pub priv] *)
Definition let_then_two_modifiers : list Token :=
  [ident "let" 1; space 4; ident "x" 5; space 6; punct TokenEqual 7; space 8;
   ident "y" 9; punct TokenSemicolon 10; space 11;
   ident "pub" 12; space 15; ident "priv" 16].

(** [let x y] *)
Definition let_without_transfer : list Token :=
  [ident "let" 1; space 4; ident "x" 5; space 6; ident "y" 7].

(** [let x: T = y] *)
Definition let_with_annotation : list Token :=
  [ident "let" 1; space 4; ident "x" 5; punct TokenColon 6; space 7;
   ident "T" 8; space 9; punct TokenEqual 10; space 11; ident "y" 12].

(** [var x <- y <- z] *)
Definition var_with_second_transfer : list Token :=
  [ident "var" 1; space 4; ident "x" 5; space 6; punct TokenLeftArrow 7;
   space 9; ident "y" 10; space 11; punct TokenLeftArrow 12; space 14;
   ident "z" 15].

(** [access(all) event Foo()] *)
Definition public_event : list Token :=
  [ident "access" 1; punct TokenParenOpen 7; ident "all" 8;
   punct TokenParenClose 11; space 12; ident "event" 13; space 18;
   ident "Foo" 19; punct TokenParenOpen 22; punct TokenParenClose 23].

(** [event Foo()] *)
Definition plain_event : list Token :=
  [ident "event" 1; space 6; ident "Foo" 7; punct TokenParenOpen 10;
   punct TokenParenClose 11].

End Sample.

(** ** Further vocabulary *)

(** The hexadecimal digits of a literal: what follows the two-character
    prefix, without the separators. *)
Definition digitsOf (literal : string) : list ascii :=
  filter (fun c => negb (Ascii.eqb c "_")) (skipn 2 (list_ascii_of_string literal)).

(** The number a sequence of hexadecimal digits denotes, most
    significant digit first, continuing from [acc]. *)
Fixpoint numeralValueFrom (acc : Z) (digits : list ascii) : option Z :=
  match digits with
  | [] => Some acc
  | d :: ds =>
      match Hex.spec_digitValue d with
      | Some v => numeralValueFrom (acc * 16 + v) ds
      | None => None
      end
  end.

Definition numeralValue (digits : list ascii) : option Z :=
  numeralValueFrom 0 digits.

(** The number a byte sequence denotes, most significant byte first. *)
Definition bytesValue (bytes : list Z) : Z :=
  fold_left (fun acc b => acc * 256 + b) bytes 0.

(** The digits handed to the pair decoder. *)
Definition paddedDigits (literal : string) : list ascii :=
  if Nat.odd (List.length (digitsOf literal))
  then "0"%char :: digitsOf literal
  else digitsOf literal.

Section FurtherRuns.

Context {syn : Syntax} {parser : Type}.
Context {cursor : Cursor parser} {collaborators : Collaborators parser}.

(** [ProducedBy fuel access accessPos p decl q]: with the parser [p] on a
    declaration keyword, [decl] is what the sub-parser of that keyword
    returns, given the access modifier [access] recorded at
    [accessPos], and [q] is the parser it leaves. *)
Definition ProducedBy
    (fuel : nat) (access : Access) (accessPos : option Position)
    (p : parser) (decl : Declaration) (q : parser) : Prop :=
  match decl with
  | VariableDecl d =>
      (isKeyword (current p) keywordLet = true
       \/ isKeyword (current p) keywordVar = true)
      /\ parseVariableDeclaration p access accessPos = Ok (d, q)
  | FunctionDecl d =>
      isKeyword (current p) keywordFun = true
      /\ parseFunctionDeclaration p access accessPos = Ok (d, q)
  | ImportDecl d =>
      isKeyword (current p) keywordImport = true
      /\ parseImportDeclaration fuel p = Ok (d, q)
  | CompositeDecl d =>
      isKeyword (current p) keywordEvent = true
      /\ parseEventDeclaration p access accessPos = Ok (d, q)
  end.

(** [NameList p names q]: from the identifier token [p] is on, the
    tokens are the imported names [names], separated by commas, up to
    the keyword [from], which [q] is on. A name after a comma is any
    identifier but [from]. *)
Inductive NameList : parser -> list Identifier -> parser -> Prop :=
| NameLast (p : parser) (name : Identifier) :
    Type_ (current p) = TokenIdentifier ->
    tokenToIdentifier (current p) = Ok name ->
    isKeyword (current (advance p)) keywordFrom = true ->
    NameList p [name] (advance p)
| NameMore (p q : parser) (name : Identifier) (names : list Identifier) :
    Type_ (current p) = TokenIdentifier ->
    tokenToIdentifier (current p) = Ok name ->
    Type_ (current (advance p)) = TokenComma ->
    valueIs (Value (current (advance (advance p)))) keywordFrom = false ->
    NameList (advance (advance p)) names q ->
    NameList p (name :: names) q.

(** The import declaration built from the state of the closures. *)
Definition importDeclarationOf (startPosition : Position) (st : ImportState)
  : ImportDeclaration :=
  mkImportDeclaration (identifiers st) (location st)
    (mkRange startPosition (endPos st)) (locationPos st).

(** [LocatedAt st st' q0 q]: the closures' state [st'] holds a location
    read from the token [q0] is on, a string or a hexadecimal literal,
    with that token's positions, and [q] is the parser past the token. *)
Definition LocatedAt (st st' : ImportState) (q0 q : parser) : Prop :=
  locationPos st' = TokenStartPos (current q0)
  /\ endPos st' = TokenEndPos (current q0)
  /\ ((Type_ (current q0) = TokenString
       /\ (exists s : string, location st' = Some (StringLocation s))
       /\ exists errs : list ParseError, q = next (report errs q0))
      \/ (Type_ (current q0) = TokenHexadecimalLiteral
          /\ (exists address : list Z, location st' = Some (AddressLocation address))
          /\ q = next q0)).

End FurtherRuns.

(** ** Memory metering of the runtime tests *)

From Stdlib Require FMapAVL OrderedTypeEx FMapFacts.
From Stdlib Require Import Permutation.

(** A Go [map[common.MemoryKind]uint64]: memory kinds are unsigned
    integers. *)
Module MeterMap := FMapAVL.Make OrderedTypeEx.N_as_OT.
Module MeterMapFacts := FMapFacts.WFacts_fun OrderedTypeEx.N_as_OT MeterMap.

Module Metering.

Definition MemoryKind : Type := N.

(** common.MemoryUsage *)
Record MemoryUsage : Type := mkMemoryUsage {
  Kind : MemoryKind;
  Amount : Z
}.

Definition Meter : Type := MeterMap.t Z.

(** uint64 wrap-around. *)
Definition wrap64 (z : Z) : Z := z mod 2 ^ 64.

(** [meter[kind]]: a missing key reads as the zero value. *)
Definition read (meter : Meter) (kind : MemoryKind) : Z :=
  match MeterMap.find kind meter with
  | Some amount => amount
  | None => 0
  end.

(** The closure returned by testUseMemory; it updates the map it
    captured, which is passed and returned here. *)
Definition testUseMemory (meter : Meter) (usage : MemoryUsage) : Meter :=
  let current :=
    match MeterMap.find (Kind usage) meter with
    | Some current => current
    | None => 0
    end in
  MeterMap.add (Kind usage) (wrap64 (current + Amount usage)) meter.

(** The closure called once for every usage of a list, in order. *)
Definition useAll (meter : Meter) (usages : list MemoryUsage) : Meter :=
  fold_left testUseMemory usages meter.

(** [make(map[common.MemoryKind]uint64)] *)
Definition emptyMeter : Meter := MeterMap.empty Z.

(** The amounts of the usages of one kind, added up. *)
Definition total (kind : MemoryKind) (usages : list MemoryUsage) : Z :=
  fold_right (fun u sum => if N.eqb (Kind u) kind then Amount u + sum else sum)
    0 usages.

(** Whether a kind occurs among the usages. *)
Definition used (kind : MemoryKind) (usages : list MemoryUsage) : bool :=
  existsb (fun u => N.eqb (Kind u) kind) usages.

End Metering.

(** ** More sample token lists *)

Module MoreSamples.

Import ListParser.

Definition stringToken (literal : string) (column : Z) : Token :=
  mkToken TokenString (ValueString literal)
    (at_ column (Z.of_nat (String.length literal))).

Definition hexToken (literal : string) (column : Z) : Token :=
  mkToken TokenHexadecimalLiteral (ValueString literal)
    (at_ column (Z.of_nat (String.length literal))).

(** [access(all)] *)
Definition access_all : list Token :=
  [ident "access" 1; punct TokenParenOpen 7; ident "all" 8;
   punct TokenParenClose 11].


(** [var x <- y <-] *)
Definition var_missing_second_value : list Token :=
  [ident "var" 1; space 4; ident "x" 5; space 6; punct TokenLeftArrow 7;
   space 9; ident "y" 10; space 11; punct TokenLeftArrow 12].

(** [event (] *)
Definition event_without_name : list Token :=
  [ident "event" 1; space 6; punct TokenParenOpen 7].

(** [import a, b from "x"] *)
Definition import_two_names : list Token :=
  [ident "import" 1; space 7; ident "a" 8; punct TokenComma 9; space 10;
   ident "b" 11; space 12; ident "from" 13; space 17; stringToken "x" 18].

(** [import a,,] *)
Definition import_double_comma : list Token :=
  [ident "import" 1; space 7; ident "a" 8; punct TokenComma 9;
   punct TokenComma 10].

(** [import a, from] *)
Definition import_comma_from : list Token :=
  [ident "import" 1; space 7; ident "a" 8; punct TokenComma 9; space 10;
   ident "from" 11].

(** [import a,] *)
Definition import_comma_end : list Token :=
  [ident "import" 1; space 7; ident "a" 8; punct TokenComma 9].

(** [import a b] *)
Definition import_a_b : list Token :=
  [ident "import" 1; space 7; ident "a" 8; space 9; ident "b" 10].

(** [import a from b] *)
Definition import_a_from_b : list Token :=
  [ident "import" 1; space 7; ident "a" 8; space 9; ident "from" 10;
   space 14; ident "b" 15].

(** [import] *)
Definition import_only : list Token :=
  [ident "import" 1].

(** [import a from] *)
Definition import_a_from : list Token :=
  [ident "import" 1; space 7; ident "a" 8; space 9; ident "from" 10].

(** [import "x"] *)
Definition import_string : list Token :=
  [ident "import" 1; space 7; stringToken "x" 8].

(** [pub import 0x1] *)
Definition pub_import : list Token :=
  [ident "pub" 1; space 4; ident "import" 5; space 11; hexToken "0x1" 12].

End MoreSamples.

(** * Properties *)

Lemma TokenType_eqb_eq (a b : TokenType) : TokenType_eqb a b = true <-> a = b.
Proof. unfold TokenType_eqb. destruct (TokenType_eq_dec a b); split; congruence. Qed.

Lemma TokenType_eqb_neq (a b : TokenType) : TokenType_eqb a b = false <-> a <> b.
Proof. unfold TokenType_eqb. destruct (TokenType_eq_dec a b); split; congruence. Qed.

Lemma Access_eqb_eq (a b : Access) : Access_eqb a b = true <-> a = b.
Proof. destruct a, b; simpl; split; congruence. Qed.

Lemma bind_Ok {A B : Type} (r : Result A) (k : A -> Result B) (b : B) :
  bind r k = Ok b -> exists a, r = Ok a /\ k a = Ok b.
Proof. destruct r; simpl; intros H; try discriminate. eauto. Qed.

Lemma bind_Panic_l {A B : Type} (r : Result A) (k : A -> Result B) (e : ParseError) :
  r = Panic e -> bind r k = Panic e.
Proof. intros ->. reflexivity. Qed.

(** One step of inverting a hypothesis that says a run of the parser
    returned: a bind, a destructuring let, or a conditional is split, an
    equation between results is opened. *)
Ltac step_inv :=
  match goal with
  | H : bind _ _ = Ok _ |- _ =>
      apply bind_Ok in H; destruct H as (? & ? & H)
  | H : match ?x with (_, _) => _ end = _ |- _ =>
      tryif is_var x then destruct x else destruct x eqn:?
  | H : Ok _ = Ok _ |- _ => inversion H; subst; clear H
  | H : Panic _ = Ok _ |- _ => discriminate H
  | H : OutOfFuel = Ok _ |- _ => discriminate H
  | H : (_, _) = (_, _) |- _ => inversion H; subst; clear H
  | H : (if ?c then _ else _) = Ok _ |- _ => destruct c eqn:?
  end.

(** ** Hexadecimal decoding *)

Module HexFacts.

Import Hex.

(** [fromHexChar] computes the value of a digit as the specification
    words it. *)
Lemma fromHexChar_spec (c : ascii) : fromHexChar c = spec_digitValue c.
Proof.
  destruct c as [[] [] [] [] [] [] [] []]; vm_compute; reflexivity.
Qed.

Lemma fromHexChar_range (c : ascii) (a : Z) :
  fromHexChar c = Some a -> 0 <= a < 16.
Proof.
  destruct c as [[] [] [] [] [] [] [] []]; vm_compute;
    intros H; inversion H; subst; split; discriminate || reflexivity.
Qed.

(** Shifting the high digit into place and or-ing in the low one is the
    positional value of the pair; no bit is lost to the wrap-around. *)
Lemma nibbles_value (a b : Z) :
  0 <= a < 16 -> 0 <= b < 16 ->
  Z.lor (wrap8 (Z.shiftl a 4)) b = 16 * a + b.
Proof.
  intros Ha Hb.
  assert (Ea : a = 0 \/ a = 1 \/ a = 2 \/ a = 3 \/ a = 4 \/ a = 5 \/ a = 6
               \/ a = 7 \/ a = 8 \/ a = 9 \/ a = 10 \/ a = 11 \/ a = 12
               \/ a = 13 \/ a = 14 \/ a = 15) by lia.
  assert (Eb : b = 0 \/ b = 1 \/ b = 2 \/ b = 3 \/ b = 4 \/ b = 5 \/ b = 6
               \/ b = 7 \/ b = 8 \/ b = 9 \/ b = 10 \/ b = 11 \/ b = 12
               \/ b = 13 \/ b = 14 \/ b = 15) by lia.
  clear Ha Hb.
  repeat (destruct Ea as [->|Ea]); try subst a;
    repeat (destruct Eb as [->|Eb]); try subst b; reflexivity.
Qed.

(** Induction on a list two elements at a time. *)
Lemma pairs_ind (A : Type) (P : list A -> Prop) :
  P [] -> (forall x, P [x]) ->
  (forall x y l, P l -> P (x :: y :: l)) ->
  forall l, P l.
Proof.
  intros Hnil Hone Hstep.
  assert (H : forall l, P l /\ forall x, P (x :: l)).
  { induction l as [|y l [IH1 IH2]]; split; auto. }
  intros l. apply H.
Qed.

(** [Decode] succeeds exactly when the digits pair up, with the same
    bytes. *)
Lemma Decode_spec (src : list ascii) :
  match Decode src with
  | (bytes, None) => spec_decodePairs src = Some bytes
  | (_, Some _) => spec_decodePairs src = None
  end.
Proof.
  induction src as [|x|x y l IH] using pairs_ind.
  - reflexivity.
  - cbn. destruct (fromHexChar x); reflexivity.
  - cbn [Decode spec_decodePairs].
    rewrite <- !fromHexChar_spec.
    destruct (fromHexChar x) as [a|] eqn:Hx; [|reflexivity].
    destruct (fromHexChar y) as [b|] eqn:Hy; [|reflexivity].
    destruct (Decode l) as [dst [err|]].
    + rewrite IH. reflexivity.
    + rewrite IH.
      rewrite (nibbles_value a b (fromHexChar_range _ _ Hx) (fromHexChar_range _ _ Hy)).
      reflexivity.
Qed.

Lemma removeAll_filter (old : ascii) (s : string) :
  list_ascii_of_string (removeAll old s) =
  filter (fun c => negb (Ascii.eqb c old)) (list_ascii_of_string s).
Proof.
  induction s as [|c s IH]; [reflexivity|].
  cbn. destruct (Ascii.eqb c old); cbn; rewrite IH; reflexivity.
Qed.

Lemma odd_length (n : nat) :
  (Z.of_nat n mod 2 =? 1) = Nat.odd n.
Proof.
  destruct (Nat.Even_or_Odd n) as [[k ->]|[k ->]].
  - rewrite Nat.odd_even.
    replace (Z.of_nat (2 * k)) with (Z.of_nat k * 2) by lia.
    rewrite Z.mod_mul by lia. reflexivity.
  - rewrite Nat.odd_odd.
    replace (Z.of_nat (2 * k + 1)) with (1 + Z.of_nat k * 2) by lia.
    rewrite Z.mod_add by lia. reflexivity.
Qed.

(** The code and the specification's decoding agree on every literal:
    the code returns the specified bytes when they are defined and
    panics otherwise. *)
Lemma parseHexadecimalLocation_spec (literal : string) :
  match spec_hexLocation literal with
  | Some bytes => parseHexadecimalLocation literal = Ok bytes
  | None => exists e, parseHexadecimalLocation literal = Panic e
  end.
Proof.
  unfold spec_hexLocation, parseHexadecimalLocation.
  destruct literal as [|c0 [|c1 tail]]; cbn [list_ascii_of_string List.length Nat.ltb Nat.leb sliceFrom2 bind skipn].
  - eauto.
  - eauto.
  - rewrite removeAll_filter, odd_length.
    set (digits := filter _ _).
    set (padded := if Nat.odd (List.length digits) then _ else _).
    pose proof (Decode_spec padded) as H.
    destruct (Decode padded) as [address [err|]]; rewrite H; eauto.
Qed.

Lemma spec_decodePairs_defined (digits : list ascii) :
  forallb isHexDigit digits = true ->
  Nat.even (List.length digits) = true ->
  exists bytes, spec_decodePairs digits = Some bytes.
Proof.
  induction digits as [|x|x y l IH] using pairs_ind; intros Hall Heven.
  - eexists. reflexivity.
  - discriminate.
  - cbn [forallb] in Hall.
    apply andb_true_iff in Hall. destruct Hall as [Hx Hall].
    apply andb_true_iff in Hall. destruct Hall as [Hy Hall].
    destruct (IH Hall Heven) as [bytes Hbytes].
    unfold isHexDigit in Hx, Hy. cbn [spec_decodePairs].
    destruct (spec_digitValue x); [|discriminate].
    destruct (spec_digitValue y); [|discriminate].
    rewrite Hbytes. eexists. reflexivity.
Qed.

Lemma filter_separators_digits (chars : list ascii) :
  forallb (fun c => isHexDigit c || Ascii.eqb c "_") chars = true ->
  forallb isHexDigit (filter (fun c => negb (Ascii.eqb c "_")) chars) = true.
Proof.
  induction chars as [|c chars IH]; [reflexivity|].
  cbn. intros H. apply andb_true_iff in H. destruct H as [Hc H].
  destruct (Ascii.eqb c "_") eqn:E; cbn; [auto|].
  rewrite orb_false_r in Hc. rewrite Hc. auto.
Qed.

(** On a well-formed literal the decoding is defined. *)
Lemma spec_hexLocation_defined (literal : string) :
  isHexadecimalLiteral literal = true ->
  exists bytes, spec_hexLocation literal = Some bytes.
Proof.
  unfold isHexadecimalLiteral, spec_hexLocation.
  destruct (list_ascii_of_string literal) as [|c0 [|c1 chars]];
    try discriminate.
  intros H. cbn [List.length Nat.ltb Nat.leb skipn].
  apply filter_separators_digits in H.
  set (digits := filter _ _) in *.
  destruct (Nat.odd (List.length digits)) eqn:Hodd.
  - apply spec_decodePairs_defined.
    + cbn [forallb]. rewrite H. reflexivity.
    + cbn [List.length]. rewrite Nat.even_succ. exact Hodd.
  - apply spec_decodePairs_defined; [exact H|].
    rewrite <- Nat.negb_odd, Hodd. reflexivity.
Qed.

End HexFacts.
(** ** The parser *)

Section ParserFacts.

Context {syn : Syntax} {parser : Type}.
Context {cursor : Cursor parser} {collaborators : Collaborators parser}.

(** The access modifier grammar never yields [AccessNotSpecified]. *)
Lemma parseAccess_specified (p q : parser) (access : Access) :
  parseAccess p = Ok (access, q) -> access <> AccessNotSpecified.
Proof.
  unfold parseAccess. intros H.
  repeat step_inv; discriminate.
Qed.

Lemma isKeyword_false_l (t : Token) (keyword : string) :
  Type_ t <> TokenIdentifier -> isKeyword t keyword = false.
Proof.
  intros H. unfold isKeyword, Is.
  apply TokenType_eqb_neq in H. rewrite H. reflexivity.
Qed.

Lemma isKeyword_true (t : Token) (keyword : string) :
  isKeyword t keyword = true ->
  Type_ t = TokenIdentifier /\ Value t = ValueString keyword.
Proof.
  unfold isKeyword, Is, valueIs. intros H.
  apply andb_true_iff in H. destruct H as [Ht Hv].
  apply TokenType_eqb_eq in Ht. split; [exact Ht|].
  destruct (Value t); try discriminate.
  apply String.eqb_eq in Hv. congruence.
Qed.

Lemma isKeyword_valueIs (t : Token) (keyword : string) :
  Type_ t = TokenIdentifier -> isKeyword t keyword = valueIs (Value t) keyword.
Proof.
  intros H. unfold isKeyword, Is. rewrite H. reflexivity.
Qed.

(** Once an access modifier is recorded, the loop body runs once more
    and leaves: a further modifier keyword is the fatal error. *)
Lemma parseDeclaration_loop_specified
    (n fuel : nat) (access : Access) (accessPos : option Position) (p : parser) :
  access <> AccessNotSpecified ->
  parseDeclaration_loop (S n) fuel access accessPos p =
  parseDeclaration_loop 1 fuel access accessPos p.
Proof.
  intros Ha. simpl.
  destruct (Type_ (current (skipSpaceAndComments true p))); try reflexivity.
  repeat (match goal with
          | |- (if ?c then _ else _) = (if ?c then _ else _) =>
              destruct c eqn:?; try reflexivity
          end).
  destruct access; congruence || discriminate.
Qed.

(** Two iterations of the dispatcher loop are all it can run. *)
Lemma parseDeclaration_loop_bound (n fuel : nat) (p : parser) (accessPos : option Position) :
  parseDeclaration_loop (S (S n)) fuel AccessNotSpecified accessPos p =
  parseDeclaration_loop 2 fuel AccessNotSpecified accessPos p.
Proof.
  change 2%nat with (S 1).
  remember (S n) as m eqn:Hm. remember 1%nat as one eqn:Hone.
  cbn [parseDeclaration_loop].
  destruct (Type_ (current (skipSpaceAndComments true p))); try reflexivity.
  repeat (match goal with
          | |- (if ?c then _ else _) = (if ?c then _ else _) =>
              destruct c eqn:?; try reflexivity
          end).
  destruct (parseAccess (skipSpaceAndComments true p)) as [[a q]| |] eqn:Hacc;
    try reflexivity.
  cbn [bind]. subst m one.
  apply parseAccess_specified in Hacc.
  apply parseDeclaration_loop_specified. exact Hacc.
Qed.

(** When the dispatcher returns no declaration, the token it stopped on
    starts neither a declaration nor an access modifier. *)
Lemma parseDeclaration_loop_None
    (n fuel : nat) (access : Access) (accessPos : option Position) (p q : parser) :
  parseDeclaration_loop n fuel access accessPos p = Ok (None, q) ->
  isDeclarationKeyword (current q) = false
  /\ isAccessModifierKeyword (current q) = false.
Proof.
  revert access accessPos p.
  induction n as [|n IH]; intros access accessPos p H; [discriminate|].
  cbn [parseDeclaration_loop] in H.
  destruct (Type_ (current (skipSpaceAndComments true p))) eqn:Ht;
    try (inversion H; subst; clear H;
         unfold isDeclarationKeyword, isAccessModifierKeyword;
         rewrite !isKeyword_false_l by (rewrite Ht; discriminate);
         split; reflexivity).
  repeat (let c := match type of H with (if ?c then _ else _) = _ => c end in
          destruct c eqn:?).
  - repeat step_inv.
  - repeat step_inv.
  - repeat step_inv.
  - repeat step_inv.
  - discriminate.
  - apply bind_Ok in H. destruct H as ([a r] & _ & H). eauto.
  - inversion H; subst; clear H.
    unfold isDeclarationKeyword, isAccessModifierKeyword.
    rewrite !isKeyword_valueIs by exact Ht.
    repeat match goal with
           | Hc : (_ || _) = false |- _ =>
               apply orb_false_iff in Hc; destruct Hc
           end.
    repeat match goal with Hc : _ = false |- _ => rewrite Hc; clear Hc end.
    split; reflexivity.
Qed.


(** C4. When the single-declaration parser, called by the
    declaration-list loop, returns no declaration, the loop returns at
    once: the declarations accumulated so far are the result and the
    parser is left exactly where the single-declaration parser left it
    (whatever that parser consumed before giving up, access modifiers
    included, nothing is consumed after it). The token it is left on
    starts neither a declaration nor an access modifier. *)
Theorem no_declaration_stops_the_loop
    (fuel : nat) (endTokenType : TokenType) (declarations : list Declaration)
    (p q : parser) :
  Type_ (current (skipSpaceAndComments true p)) <> TokenSemicolon ->
  Type_ (current (skipSpaceAndComments true p)) <> endTokenType ->
  Type_ (current (skipSpaceAndComments true p)) <> TokenEOF ->
  parseDeclaration fuel (skipSpaceAndComments true p) = Ok (None, q) ->
  parseDeclarations_loop (S fuel) endTokenType declarations p = Ok (declarations, q)
  /\ isDeclarationKeyword (current q) = false
  /\ isAccessModifierKeyword (current q) = false.
Proof.
  intros Hsemi Hend Heof Hnone. split.
  - cbn [parseDeclarations_loop].
    apply TokenType_eqb_neq in Hsemi, Hend, Heof.
    rewrite Hsemi, Hend, Heof. cbn [orb].
    rewrite Hnone. reflexivity.
  - exact (parseDeclaration_loop_None _ _ _ _ _ _ Hnone).
Qed.

(** C5. When the declaration-list loop hits a fatal error, in whichever
    iteration, the whole parse is that one panic: no declaration list is
    returned, whatever had been accumulated before the failure. *)
Theorem fatal_error_fails_the_whole_parse
    (fuel : nat) (endTokenType : TokenType) (p : parser) (e : ParseError) :
  FatalAt endTokenType fuel p e ->
  parseDeclarations fuel p endTokenType = Panic e
  /\ forall declarations : list Declaration,
       parseDeclarations_loop fuel endTokenType declarations p = Panic e.
Proof.
  intros Hfatal.
  assert (Hloop : forall declarations,
             parseDeclarations_loop fuel endTokenType declarations p = Panic e).
  { induction Hfatal as
        [fuel p e Hsemi Hend Heof Hpanic
        |fuel p e Hsemi _ IH
        |fuel p p' d e Hsemi Hend Heof Hdecl _ IH];
      intros declarations; cbn [parseDeclarations_loop].
    - apply TokenType_eqb_neq in Hsemi, Hend, Heof.
      rewrite Hsemi, Hend, Heof. cbn [orb]. rewrite Hpanic. reflexivity.
    - apply TokenType_eqb_eq in Hsemi. rewrite Hsemi. apply IH.
    - apply TokenType_eqb_neq in Hsemi, Hend, Heof.
      rewrite Hsemi, Hend, Heof. cbn [orb]. rewrite Hdecl. cbn [bind].
      apply IH. }
  split; [apply Hloop | exact Hloop].
Qed.

(** C6, as amended. Once the access-modifier grammar has returned an
    access modifier, an access-modifier keyword as the next token is the
    fatal error "unexpected access modifier". In particular: [priv]
    directly followed by an access-modifier keyword, and [pub] directly
    followed by one, raise it. (A leading [access] must first get
    through its parenthesised argument.) *)
Theorem second_access_modifier_is_fatal (fuel : nat) (p : parser) :
  (forall (access : Access) (q : parser),
      isAccessModifierKeyword (current (skipSpaceAndComments true p)) = true ->
      parseAccess (skipSpaceAndComments true p) = Ok (access, q) ->
      isAccessModifierKeyword (current (skipSpaceAndComments true q)) = true ->
      parseDeclaration fuel p = Panic (Errorf "unexpected access modifier" []))
  /\ (isKeyword (current (skipSpaceAndComments true p)) keywordPriv = true ->
      isAccessModifierKeyword
        (current (skipSpaceAndComments true
                    (next (skipSpaceAndComments true p)))) = true ->
      parseDeclaration fuel p = Panic (Errorf "unexpected access modifier" []))
  /\ (isKeyword (current (skipSpaceAndComments true p)) keywordPub = true ->
      isAccessModifierKeyword
        (current (skipSpaceAndComments true
                    (next (skipSpaceAndComments true p)))) = true ->
      isAccessModifierKeyword
        (current (skipSpaceAndComments true
                    (skipSpaceAndComments true
                       (next (skipSpaceAndComments true p))))) = true ->
      parseDeclaration fuel p = Panic (Errorf "unexpected access modifier" [])).
Proof.
  assert (General : forall (access : Access) (q : parser),
    isAccessModifierKeyword (current (skipSpaceAndComments true p)) = true ->
    parseAccess (skipSpaceAndComments true p) = Ok (access, q) ->
    isAccessModifierKeyword (current (skipSpaceAndComments true q)) = true ->
    parseDeclaration fuel p = Panic (Errorf "unexpected access modifier" [])).
  { intros access q Hfirst Haccess Hsecond.
    unfold parseDeclaration. cbn [parseDeclaration_loop].
    unfold isAccessModifierKeyword in Hfirst, Hsecond.
    assert (Ht : Type_ (current (skipSpaceAndComments true p)) = TokenIdentifier).
    { repeat (apply orb_true_iff in Hfirst; destruct Hfirst as [Hfirst|Hfirst]);
        apply isKeyword_true in Hfirst; tauto. }
    assert (Ht' : Type_ (current (skipSpaceAndComments true q)) = TokenIdentifier).
    { repeat (apply orb_true_iff in Hsecond; destruct Hsecond as [Hsecond|Hsecond]);
        apply isKeyword_true in Hsecond; tauto. }
    rewrite !isKeyword_valueIs in Hfirst by exact Ht.
    rewrite !isKeyword_valueIs in Hsecond by exact Ht'.
    rewrite Ht.
    assert (Hv : exists k, Value (current (skipSpaceAndComments true p)) = ValueString k
                           /\ (k = keywordPriv \/ k = keywordPub \/ k = keywordAccess)).
    { destruct (Value (current (skipSpaceAndComments true p))) as [|k|];
        try discriminate.
      exists k. split; [reflexivity|]. cbn [valueIs] in Hfirst.
      repeat (apply orb_true_iff in Hfirst; destruct Hfirst as [Hfirst|Hfirst]);
        apply String.eqb_eq in Hfirst; tauto. }
    destruct Hv as (k & Hk & Hcases). rewrite Hk in *.
    assert (Hv' : exists k', Value (current (skipSpaceAndComments true q)) = ValueString k'
                           /\ (k' = keywordPriv \/ k' = keywordPub \/ k' = keywordAccess)).
    { destruct (Value (current (skipSpaceAndComments true q))) as [|k'|];
        try discriminate.
      exists k'. split; [reflexivity|]. cbn [valueIs] in Hsecond.
      repeat (apply orb_true_iff in Hsecond; destruct Hsecond as [Hsecond|Hsecond]);
        apply String.eqb_eq in Hsecond; tauto. }
    destruct Hv' as (k' & Hk' & Hcases').
    apply parseAccess_specified in Haccess as Hspec.
    assert (Hneg : negb (Access_eqb access AccessNotSpecified) = true).
    { destruct access; try reflexivity. congruence. }
    destruct Hcases as [-> | [-> | ->]]; cbn;
      rewrite Haccess; cbn [bind]; rewrite Ht', Hk';
      destruct Hcases' as [-> | [-> | ->]]; cbn; rewrite Hneg; reflexivity. }
  split; [exact General|]. split.
  - intros Hfirst Hsecond.
    apply (General AccessPrivate (next (skipSpaceAndComments true p))).
    + unfold isAccessModifierKeyword. rewrite Hfirst. reflexivity.
    + apply isKeyword_true in Hfirst. destruct Hfirst as [_ Hv].
      unfold parseAccess. rewrite Hv. reflexivity.
    + exact Hsecond.
  - intros Hfirst Hfollows Hsecond.
    assert (Ht' : Type_ (current (skipSpaceAndComments true
                                    (next (skipSpaceAndComments true p))))
                  = TokenIdentifier).
    { unfold isAccessModifierKeyword in Hfollows.
      repeat (apply orb_true_iff in Hfollows; destruct Hfollows as [Hfollows|Hfollows]);
        apply isKeyword_true in Hfollows; tauto. }
    apply (General AccessPublic
             (skipSpaceAndComments true (next (skipSpaceAndComments true p)))).
    + unfold isAccessModifierKeyword. rewrite Hfirst.
      rewrite orb_true_r. reflexivity.
    + apply isKeyword_true in Hfirst. destruct Hfirst as [_ Hv].
      unfold parseAccess. rewrite Hv. cbn.
      unfold Is. rewrite Ht'. reflexivity.
    + exact Hsecond.
Qed.

(** C7. The transfer grammar maps [=] to Copy, [<-] to Move and [<-!] to
    MoveForced, advancing the parser once; on every other token it
    returns no transfer (and no error) and leaves the parser as it is. *)
Theorem parseTransfer_maps_the_three_tokens (p : parser) :
  match Type_ (current p) with
  | TokenEqual =>
      parseTransfer p =
      (Some (mkTransfer TransferOperationCopy (TokenStartPos (current p))), next p)
  | TokenLeftArrow =>
      parseTransfer p =
      (Some (mkTransfer TransferOperationMove (TokenStartPos (current p))), next p)
  | TokenLeftArrowExclamation =>
      parseTransfer p =
      (Some (mkTransfer TransferOperationMoveForced (TokenStartPos (current p))), next p)
  | _ => parseTransfer p = (None, p)
  end.
Proof.
  unfold parseTransfer. destruct (Type_ (current p)); reflexivity.
Qed.

(** The two outcomes of the transfer grammar. *)
Lemma parseTransfer_cases (p : parser) :
  (isTransferTokenType (Type_ (current p)) = true
   /\ exists t : Transfer,
        parseTransfer p = (Some t, next p)
        /\ Transfer_Operation t <> TransferOperationUnknown)
  \/ (isTransferTokenType (Type_ (current p)) = false
      /\ parseTransfer p = (None, p)).
Proof.
  unfold parseTransfer.
  destruct (Type_ (current p)); cbn;
    solve [ right; split; reflexivity
          | left; split; [reflexivity|];
            eexists; split; [reflexivity|]; cbn; discriminate ].
Qed.

Lemma parseTransfer_Some (p q : parser) (t : Transfer) :
  parseTransfer p = (Some t, q) ->
  isTransferTokenType (Type_ (current p)) = true
  /\ q = next p
  /\ Transfer_Operation t <> TransferOperationUnknown.
Proof.
  intros H.
  destruct (parseTransfer_cases p) as [[Hk (t' & Ht & Hop)]|[_ Ht]];
    rewrite Ht in H; inversion H; subst; auto.
Qed.

Lemma parseTransfer_None (p q : parser) :
  parseTransfer p = (None, q) ->
  isTransferTokenType (Type_ (current p)) = false /\ q = p.
Proof.
  intros H.
  destruct (parseTransfer_cases p) as [[_ (t' & Ht & _)]|[Hk Ht]];
    rewrite Ht in H; inversion H; subst; auto.
Qed.

(** C8. A variable declaration must have a transfer operator after its
    identifier and optional type annotation: when the token there is not
    one of the three transfer operators the parser panics with "expected
    transfer", and every declaration it returns has a transfer whose
    operation is known. *)
Theorem transfer_is_mandatory
    (p : parser) (access : Access) (accessPos : option Position) :
  (forall (identifier : Identifier) (q : parser),
      Is (current (advance p)) TokenIdentifier = true ->
      tokenToIdentifier (current (advance p)) = Ok identifier ->
      TypeAnnotationEndsAt (advance (advance p)) q ->
      isTransferTokenType (Type_ (current (skipSpaceAndComments true q))) = false ->
      parseVariableDeclaration p access accessPos
      = Panic (Errorf "expected transfer" []))
  /\ (forall (d : VariableDeclaration) (q : parser),
      parseVariableDeclaration p access accessPos = Ok (d, q) ->
      exists t : Transfer,
        VariableDeclaration_Transfer d = Some t
        /\ Transfer_Operation t <> TransferOperationUnknown).
Proof.
  split.
  - intros identifier q Hident Hname Hannot Hnone.
    unfold parseVariableDeclaration. fold (advance p).
    rewrite Hident. cbn [negb]. rewrite Hname. cbn [bind].
    fold (advance (advance p)).
    destruct (parseTransfer_cases (skipSpaceAndComments true q))
      as [[Hsome _]|[_ Hparse]]; [congruence|].
    destruct Hannot as [[Hcolon ->]|[Hcolon (ty & Hty)]]; rewrite Hcolon.
    + cbn [bind]. rewrite Hparse. reflexivity.
    + fold (advance (advance (advance p))). rewrite Hty. cbn [bind].
      rewrite Hparse. reflexivity.
  - intros d q H. unfold parseVariableDeclaration in H.
    repeat step_inv; try discriminate; cbn;
      match goal with
      | Ht : parseTransfer _ = (Some ?t, _) |- exists _, Some ?t = _ /\ _ =>
          apply parseTransfer_Some in Ht; exists t; tauto
      end.
Qed.

(** C9. In every variable declaration the parser returns, the second
    transfer and the second value are both present or both absent: with
    the parser on the token after the first value expression, a transfer
    operator there is followed by the parse of a second expression, which
    is stored with it; any other token leaves both absent and is not
    consumed. *)
Theorem second_transfer_and_value_go_together
    (p q : parser) (access : Access) (accessPos : option Position)
    (d : VariableDeclaration) :
  parseVariableDeclaration p access accessPos = Ok (d, q) ->
  exists p3 p4 : parser,
    parseExpression p3 lowestBindingPower = Ok (VariableDeclaration_Value d, p4)
    /\ ((isTransferTokenType (Type_ (current (skipSpaceAndComments true p4))) = true
         /\ exists (t : Transfer) (v : Expression),
              VariableDeclaration_SecondTransfer d = Some t
              /\ VariableDeclaration_SecondValue d = Some v
              /\ parseExpression (next (skipSpaceAndComments true p4))
                   lowestBindingPower = Ok (v, q))
        \/ (isTransferTokenType (Type_ (current (skipSpaceAndComments true p4))) = false
            /\ VariableDeclaration_SecondTransfer d = None
            /\ VariableDeclaration_SecondValue d = None
            /\ q = skipSpaceAndComments true p4)).
Proof.
  intros H. unfold parseVariableDeclaration in H.
  repeat step_inv; try discriminate; cbn;
    match goal with
    | Hv : parseExpression ?r _ = Ok (?v, ?r'),
      Ht : parseTransfer (skipSpaceAndComments true ?r') = _ |- _ =>
        exists r, r'; split; [exact Hv|];
        first [ apply parseTransfer_Some in Ht; destruct Ht as (Hk & -> & _);
                left; split; [exact Hk|]; eauto
              | apply parseTransfer_None in Ht; destruct Ht as (Hk & ->);
                right; auto ]
    end.
Qed.

(** What the import parser does with [import], one identifier and
    end-of-input. *)
Lemma parseImportDeclaration_lone_identifier
    (fuel : nat) (p : parser) (identifier : Identifier) :
  Type_ (current (advance p)) = TokenIdentifier ->
  tokenToIdentifier (current (advance p)) = Ok identifier ->
  Type_ (current (advance (advance p))) = TokenEOF ->
  parseImportDeclaration fuel p =
  Ok ({| ImportDeclaration_Identifiers := [];
         ImportDeclaration_Location := None;
         ImportDeclaration_Range :=
           mkRange (TokenStartPos (current p)) (Identifier_EndPosition identifier);
         ImportDeclaration_LocationPos := Identifier_Pos identifier |},
      advance (advance p)).
Proof.
  intros Hident Hname Heof.
  unfold parseImportDeclaration. fold (advance p).
  rewrite Hident, Hname. cbn [bind]. fold (advance (advance p)).
  rewrite Heof. reflexivity.
Qed.

(** C1, as amended. For [import], one identifier and end-of-input, the
    dispatcher returns an import declaration with an empty identifiers
    list whose location position and range end are those of the
    identifier; the location itself is left absent. *)
Theorem lone_identifier_import_has_no_location
    (fuel : nat) (p : parser) (identifier : Identifier) :
  isKeyword (current (skipSpaceAndComments true p)) keywordImport = true ->
  Type_ (current (advance (skipSpaceAndComments true p))) = TokenIdentifier ->
  tokenToIdentifier (current (advance (skipSpaceAndComments true p))) = Ok identifier ->
  Type_ (current (advance (advance (skipSpaceAndComments true p)))) = TokenEOF ->
  exists d : ImportDeclaration,
    parseDeclaration fuel p =
    Ok (Some (ImportDecl d), advance (advance (skipSpaceAndComments true p)))
    /\ ImportDeclaration_Identifiers d = []
    /\ ImportDeclaration_Location d = None
    /\ ImportDeclaration_LocationPos d = Identifier_Pos identifier
    /\ EndPos (ImportDeclaration_Range d) = Identifier_EndPosition identifier.
Proof.
  intros Himport Hident Hname Heof.
  apply isKeyword_true in Himport. destruct Himport as [Ht Hv].
  eexists. split.
  - unfold parseDeclaration. cbn [parseDeclaration_loop].
    rewrite Ht, Hv. cbn [valueIs]. cbn -[parseImportDeclaration].
    rewrite (parseImportDeclaration_lone_identifier fuel _ _ Hident Hname Heof).
    reflexivity.
  - cbn. auto.
Qed.

(** C2. On [import], one identifier and end-of-input the import parser
    returns normally. The declaration has no identifiers and no
    location; its range runs from the [import] keyword to the end of the
    identifier and its location position is the identifier's position.
    The parser is left on the end-of-input token. *)
Theorem import_of_a_lone_identifier_returns
    (fuel : nat) (p : parser) (identifier : Identifier) :
  Type_ (current (advance p)) = TokenIdentifier ->
  tokenToIdentifier (current (advance p)) = Ok identifier ->
  Type_ (current (advance (advance p))) = TokenEOF ->
  parseImportDeclaration fuel p =
  Ok (mkImportDeclaration
        []
        None
        (mkRange (TokenStartPos (current p)) (Identifier_EndPosition identifier))
        (Identifier_Pos identifier),
      advance (advance p)).
Proof.
  intros Hident Hname Heof.
  apply parseImportDeclaration_lone_identifier; assumption.
Qed.

(** C3. The address of a hexadecimal import location is the hex-decoding
    of the literal without its two-character prefix and its [_]
    separators, left-padded with one ['0'] when the digit count is odd:
    the code returns bytes exactly when that decoding is defined, and
    the same ones; it is defined on every well-formed literal; the
    location closure stores the bytes as the address location; [0x1]
    gives the byte 0x01 and [0xA_B] the byte 0xAB. *)
Theorem hexadecimal_location_is_the_decoded_literal :
  (forall (literal : string) (bytes : list Z),
      Hex.parseHexadecimalLocation literal = Ok bytes
      <-> Hex.spec_hexLocation literal = Some bytes)
  /\ (forall literal : string,
      Hex.isHexadecimalLiteral literal = true ->
      exists bytes : list Z, Hex.parseHexadecimalLocation literal = Ok bytes)
  /\ (forall (st : ImportState) (p : parser) (literal : string),
      Type_ (current p) = TokenHexadecimalLiteral ->
      Value (current p) = ValueString literal ->
      Hex.isHexadecimalLiteral literal = true ->
      exists (bytes : list Z) (st' : ImportState),
        Hex.spec_hexLocation literal = Some bytes
        /\ parseStringOrAddressLocation st p = Ok (st', next p)
        /\ location st' = Some (AddressLocation bytes))
  /\ Hex.parseHexadecimalLocation "0x1" = Ok [1]
  /\ Hex.parseHexadecimalLocation "0xA_B" = Ok [171].
Proof.
  assert (Defined : forall literal : string,
             Hex.isHexadecimalLiteral literal = true ->
             exists bytes : list Z,
               Hex.spec_hexLocation literal = Some bytes
               /\ Hex.parseHexadecimalLocation literal = Ok bytes).
  { intros literal Hwf.
    destruct (HexFacts.spec_hexLocation_defined literal Hwf) as [bytes Hbytes].
    exists bytes. split; [exact Hbytes|].
    pose proof (HexFacts.parseHexadecimalLocation_spec literal) as H.
    rewrite Hbytes in H. exact H. }
  repeat split.
  - intros Hcode.
    pose proof (HexFacts.parseHexadecimalLocation_spec literal) as H.
    destruct (Hex.spec_hexLocation literal) as [bytes'|].
    + congruence.
    + destruct H as [e He]. congruence.
  - intros Hspec.
    pose proof (HexFacts.parseHexadecimalLocation_spec literal) as H.
    rewrite Hspec in H. exact H.
  - intros literal Hwf.
    destruct (Defined literal Hwf) as (bytes & _ & Hcode). eauto.
  - intros st p literal Ht Hv Hwf.
    destruct (Defined literal Hwf) as (bytes & Hspec & Hcode).
    exists bytes. eexists. split; [exact Hspec|].
    unfold parseStringOrAddressLocation.
    rewrite Ht, Hv. cbn [assertString bind]. rewrite Hcode. cbn [bind].
    split; reflexivity.
Qed.

(** C10. Every event declaration the parser returns is a composite of
    the event kind with the access it was given, whose members are one
    special function and nothing else: an initializer whose parameter
    list is the one the parameter-list parser returned and that has no
    function block. The dispatcher passes the access modifier it parsed
    before the [event] keyword, or [AccessNotSpecified] when there was
    none. *)
Theorem event_is_a_composite_with_one_initializer :
  (forall (p q : parser) (access : Access) (accessPos : option Position)
          (d : CompositeDeclaration),
      parseEventDeclaration p access accessPos = Ok (d, q) ->
      CompositeDeclaration_CompositeKind d = CompositeKindEvent
      /\ CompositeDeclaration_Access d = access
      /\ exists (parameterList : ParameterList)
                (initializer : SpecialFunctionDeclaration)
                (functionDeclaration : FunctionDeclaration),
           parseParameterList (next (advance p)) = Ok (parameterList, q)
           /\ CompositeDeclaration_Members d
              = Some (mkMembers [] [initializer] [] [] [])
           /\ SpecialFunctionDeclaration_DeclarationKind initializer
              = DeclarationKindInitializer
           /\ SpecialFunctionDeclaration_FunctionDeclaration initializer
              = Some functionDeclaration
           /\ FunctionDeclaration_ParameterList functionDeclaration
              = Some parameterList
           /\ FunctionDeclaration_FunctionBlock functionDeclaration = None)
  /\ (forall (fuel : nat) (p : parser),
      isKeyword (current (skipSpaceAndComments true p)) keywordEvent = true ->
      parseDeclaration fuel p =
      ('(d, q) <- parseEventDeclaration (skipSpaceAndComments true p)
                    AccessNotSpecified None ;;
       Ok (Some (CompositeDecl d), q)))
  /\ (forall (fuel : nat) (p q : parser) (access : Access),
      isAccessModifierKeyword (current (skipSpaceAndComments true p)) = true ->
      parseAccess (skipSpaceAndComments true p) = Ok (access, q) ->
      isKeyword (current (skipSpaceAndComments true q)) keywordEvent = true ->
      parseDeclaration fuel p =
      ('(d, r) <- parseEventDeclaration (skipSpaceAndComments true q) access
                    (Some (TokenStartPos (current (skipSpaceAndComments true p)))) ;;
       Ok (Some (CompositeDecl d), r))).
Proof.
  split; [|split].
  - intros p q access accessPos d H.
    unfold parseEventDeclaration in H. fold (advance p) in H.
    repeat step_inv; try discriminate.
    cbn. repeat split.
    eexists. eexists. eexists.
    split; [eassumption|].
    repeat split.
  - intros fuel p Hevent.
    apply isKeyword_true in Hevent. destruct Hevent as [Ht Hv].
    unfold parseDeclaration. cbn [parseDeclaration_loop].
    rewrite Ht, Hv. reflexivity.
  - intros fuel p q access Hmod Haccess Hevent.
    apply isKeyword_true in Hevent. destruct Hevent as [Ht' Hv'].
    unfold parseDeclaration. cbn [parseDeclaration_loop].
    unfold isAccessModifierKeyword in Hmod.
    assert (Hk : exists k,
               Type_ (current (skipSpaceAndComments true p)) = TokenIdentifier
               /\ Value (current (skipSpaceAndComments true p)) = ValueString k
               /\ (k = keywordPriv \/ k = keywordPub \/ k = keywordAccess)).
    { repeat (apply orb_true_iff in Hmod; destruct Hmod as [Hmod|Hmod]);
        apply isKeyword_true in Hmod; destruct Hmod; eauto 6. }
    destruct Hk as (k & Ht & Hv & Hk).
    rewrite Ht, Hv.
    destruct Hk as [-> | [-> | ->]]; cbn;
      rewrite Haccess; cbn [bind]; rewrite Ht', Hv'; reflexivity.
Qed.

End ParserFacts.

(** ** The theorems on sample token lists *)

(** [import foo]: no identifiers, no location (C1, as amended). *)
Lemma lone_identifier_import_has_no_location_witness :
  exists d : ImportDeclaration,
    parseDeclaration 1 (ListParser.start Sample.import_foo) =
    Ok (Some (ImportDecl d),
        advance (advance (skipSpaceAndComments true
                            (ListParser.start Sample.import_foo))))
    /\ ImportDeclaration_Identifiers d = []
    /\ ImportDeclaration_Location d = None
    /\ ImportDeclaration_LocationPos d = mkPosition 8 1 8
    /\ EndPos (ImportDeclaration_Range d) = mkPosition 10 1 10.
Proof.
  exact (lone_identifier_import_has_no_location 1
           (ListParser.start Sample.import_foo)
           (mkIdentifier "foo" (mkPosition 8 1 8))
           eq_refl eq_refl eq_refl eq_refl).
Defined.

(** C1 as stated fails on [import foo]: the declaration that is returned
    has no location at all, so none derived from the identifier. *)
Lemma lone_identifier_import_location_counterexample :
  ~ (exists (d : ImportDeclaration) (q : ListParser.parser) (l : Location),
        parseImportDeclaration 1 (ListParser.start Sample.import_foo) = Ok (d, q)
        /\ ImportDeclaration_Identifiers d = []
        /\ ImportDeclaration_Location d = Some l).
Proof.
  intros (d & q & l & Hrun & _ & Hlocation).
  vm_compute in Hrun. inversion Hrun; subst; clear Hrun.
  discriminate Hlocation.
Qed.

(** [import foo] returns (C2). *)
Lemma import_of_a_lone_identifier_returns_witness :
  parseImportDeclaration 1 (ListParser.start Sample.import_foo) =
  Ok (mkImportDeclaration [] None
        (mkRange (mkPosition 1 1 1) (mkPosition 10 1 10))
        (mkPosition 8 1 8),
      advance (advance (ListParser.start Sample.import_foo))).
Proof.
  exact (import_of_a_lone_identifier_returns 1
           (ListParser.start Sample.import_foo)
           (mkIdentifier "foo" (mkPosition 8 1 8))
           eq_refl eq_refl eq_refl).
Defined.

(** [import 0xA_B]: the address is the byte 0xAB (C3). *)
Lemma hexadecimal_location_is_the_decoded_literal_witness :
  (exists bytes : list Z, Hex.parseHexadecimalLocation "0xA_B" = Ok bytes)
  /\ Hex.parseHexadecimalLocation "0xA_B" = Ok [171]
  /\ exists (bytes : list Z) (st' : ImportState),
       Hex.spec_hexLocation "0xA_B" = Some bytes
       /\ parseStringOrAddressLocation
            (mkImportState [] None zeroPosition zeroPosition)
            (advance (ListParser.start Sample.import_address))
          = Ok (st', next (advance (ListParser.start Sample.import_address)))
       /\ location st' = Some (AddressLocation bytes).
Proof.
  pose proof (@hexadecimal_location_is_the_decoded_literal
                ListParser.syntax ListParser.parser
                ListParser.cursor ListParser.collaborators)
    as (Hiff & Hdefined & Hlocation & _ & _).
  split; [|split].
  - apply Hdefined. reflexivity.
  - apply (proj2 (Hiff "0xA_B" [171])). reflexivity.
  - apply Hlocation; reflexivity.
Defined.

(** [pub foo]: the dispatcher consumes [pub], finds no declaration, and
    the loop stops on [foo] (C4). *)
Lemma no_declaration_stops_the_loop_witness :
  parseDeclarations_loop 2 TokenEOF [] (ListParser.start Sample.pub_foo)
  = Ok ([], ListParser.mkParser (ListParser.ident "foo" 5) [] [])
  /\ isDeclarationKeyword (ListParser.ident "foo" 5) = false
  /\ isAccessModifierKeyword (ListParser.ident "foo" 5) = false.
Proof.
  refine (no_declaration_stops_the_loop 1 TokenEOF []
            (ListParser.start Sample.pub_foo)
            (ListParser.mkParser (ListParser.ident "foo" 5) [] [])
            _ _ _ _);
    (discriminate || reflexivity).
Defined.

(** [let x = y; pub priv]: the declaration of [x] is parsed, then the
    second modifier is fatal, and the parse is that panic (C5). *)
Lemma fatal_error_fails_the_whole_parse_witness :
  parseDeclarations 3 (ListParser.start Sample.let_then_two_modifiers) TokenEOF
  = Panic (Errorf "unexpected access modifier" [])
  /\ forall declarations : list Declaration,
       parseDeclarations_loop 3 TokenEOF declarations
         (ListParser.start Sample.let_then_two_modifiers)
       = Panic (Errorf "unexpected access modifier" []).
Proof.
  apply fatal_error_fails_the_whole_parse.
  eapply FatalAfterDeclaration;
    [discriminate | discriminate | discriminate | vm_compute; reflexivity |].
  apply FatalAfterSemicolon; [reflexivity|].
  apply FatalHere; (discriminate || reflexivity).
Defined.

(** [pub priv]: the second modifier is fatal (C6, as amended). *)
Lemma second_access_modifier_is_fatal_witness :
  parseDeclaration 1 (ListParser.start Sample.pub_priv)
  = Panic (Errorf "unexpected access modifier" []).
Proof.
  exact (proj2 (proj2 (second_access_modifier_is_fatal 1
                         (ListParser.start Sample.pub_priv)))
           eq_refl eq_refl eq_refl).
Defined.

(** C6 as stated fails on [access priv]: two access-modifier keywords in
    a row, and the panic is the missing parenthesis of [access], not
    "unexpected access modifier". *)
Lemma two_modifier_keywords_counterexample :
  ~ (forall (fuel : nat) (p : ListParser.parser),
        isAccessModifierKeyword (current p) = true ->
        isAccessModifierKeyword (current (advance p)) = true ->
        parseDeclaration fuel p = Panic (Errorf "unexpected access modifier" [])).
Proof.
  intros H.
  specialize (H 1%nat (ListParser.start Sample.access_priv) eq_refl eq_refl).
  vm_compute in H. discriminate H.
Qed.

(** [let x y] has no transfer; [let x: T = y] has one (C8). *)
Lemma transfer_is_mandatory_witness :
  parseVariableDeclaration (ListParser.start Sample.let_without_transfer)
    AccessNotSpecified None
  = Panic (Errorf "expected transfer" [])
  /\ exists t : Transfer,
       Some (mkTransfer TransferOperationCopy (mkPosition 10 1 10)) = Some t
       /\ Transfer_Operation t <> TransferOperationUnknown.
Proof.
  split.
  - apply (proj1 (transfer_is_mandatory
                    (ListParser.start Sample.let_without_transfer)
                    AccessNotSpecified None)
             (mkIdentifier "x" (mkPosition 5 1 5))
             (advance (advance (ListParser.start Sample.let_without_transfer)))).
    + reflexivity.
    + reflexivity.
    + left. split; reflexivity.
    + reflexivity.
  - pose proof (proj2 (transfer_is_mandatory
                         (ListParser.start Sample.let_with_annotation)
                         AccessNotSpecified None)) as H.
    specialize (H _ _ eq_refl). exact H.
Defined.

(** [var x <- y <- z]: second transfer and second value are both there
    (C9). *)
Lemma second_transfer_and_value_go_together_witness :
  exists (d : VariableDeclaration) (q p3 p4 : ListParser.parser),
    parseVariableDeclaration (ListParser.start Sample.var_with_second_transfer)
      AccessNotSpecified None = Ok (d, q)
    /\ parseExpression p3 lowestBindingPower = Ok (VariableDeclaration_Value d, p4)
    /\ ((isTransferTokenType (Type_ (current (skipSpaceAndComments true p4))) = true
         /\ exists (t : Transfer) (v : Expression),
              VariableDeclaration_SecondTransfer d = Some t
              /\ VariableDeclaration_SecondValue d = Some v
              /\ parseExpression (next (skipSpaceAndComments true p4))
                   lowestBindingPower = Ok (v, q))
        \/ (isTransferTokenType (Type_ (current (skipSpaceAndComments true p4))) = false
            /\ VariableDeclaration_SecondTransfer d = None
            /\ VariableDeclaration_SecondValue d = None
            /\ q = skipSpaceAndComments true p4)).
Proof.
  eexists. eexists.
  assert (Hrun : parseVariableDeclaration
                   (ListParser.start Sample.var_with_second_transfer)
                   AccessNotSpecified None = Ok _) by (vm_compute; reflexivity).
  destruct (second_transfer_and_value_go_together _ _ _ _ _ Hrun)
    as (p3 & p4 & H).
  exists p3, p4. split; [exact Hrun | exact H].
Defined.

(** [event Foo()] and [access(all) event Foo()] (C10). *)
Lemma event_is_a_composite_with_one_initializer_witness :
  (exists (d : CompositeDeclaration) (q : ListParser.parser),
      parseEventDeclaration (ListParser.start Sample.plain_event)
        AccessPublic None = Ok (d, q)
      /\ CompositeDeclaration_CompositeKind d = CompositeKindEvent
      /\ CompositeDeclaration_Access d = AccessPublic)
  /\ (exists (d : CompositeDeclaration) (q : ListParser.parser),
      parseDeclaration 1 (ListParser.start Sample.plain_event)
      = Ok (Some (CompositeDecl d), q)
      /\ CompositeDeclaration_Access d = AccessNotSpecified)
  /\ (exists (d : CompositeDeclaration) (q : ListParser.parser),
      parseDeclaration 1 (ListParser.start Sample.public_event)
      = Ok (Some (CompositeDecl d), q)
      /\ CompositeDeclaration_Access d = AccessPublic).
Proof.
  pose proof (@event_is_a_composite_with_one_initializer
                ListParser.syntax ListParser.parser
                ListParser.cursor ListParser.collaborators)
    as (Hevent & Hplain & Hmodified).
  split; [|split].
  - eexists. eexists.
    assert (Hrun : parseEventDeclaration (ListParser.start Sample.plain_event)
                     AccessPublic None = Ok _) by (vm_compute; reflexivity).
    split; [exact Hrun|].
    destruct (Hevent _ _ _ _ _ Hrun) as (Hkind & Haccess & _).
    split; [exact Hkind | exact Haccess].
  - eexists. eexists.
    rewrite (Hplain 1%nat (ListParser.start Sample.plain_event) eq_refl).
    split; vm_compute; reflexivity.
  - eexists. eexists.
    rewrite (Hmodified 1%nat (ListParser.start Sample.public_event)
               _ AccessPublic eq_refl eq_refl eq_refl).
    split; vm_compute; reflexivity.
Defined.

(** ** Further runs on the list-backed parser *)

(** [import 0x1]: no identifiers, the address is the byte 0x01. *)
Example import_odd_address :
  exists (range : Range) (pos : Position) (q : ListParser.parser),
    parseDeclaration 1
      (ListParser.start
         [ListParser.ident "import" 1; ListParser.space 7;
          mkToken TokenHexadecimalLiteral (ValueString "0x1") (ListParser.at_ 8 3)])
    = Ok (Some (ImportDecl
                  (mkImportDeclaration [] (Some (AddressLocation [1])) range pos)),
          q).
Proof. do 3 eexists. vm_compute. reflexivity. Qed.

(** On the list-backed cursor a transfer operator is one token of the
    list: [parseTransfer] leaves the parser on the token after it, with
    the rest of the list untouched. *)
Example parseTransfer_takes_one_token (t : Token) (ts : list Token) :
  parseTransfer
    (ListParser.mkParser (ListParser.punct TokenLeftArrowExclamation 1) (t :: ts) [])
  = (Some (mkTransfer TransferOperationMoveForced (mkPosition 1 1 1)),
     ListParser.mkParser t ts []).
Proof. reflexivity. Qed.

(** On any other token nothing is taken. *)
Example parseTransfer_takes_nothing (ts : list Token) :
  parseTransfer (ListParser.mkParser (ListParser.ident "x" 1) ts [])
  = (None, ListParser.mkParser (ListParser.ident "x" 1) ts []).
Proof. reflexivity. Qed.

(** [let x = y; pub foo]: the declaration of [x] is returned and the
    parser is left on [foo]; the [pub] before it has been consumed. *)
Example declarations_before_an_unknown_token :
  exists d : VariableDeclaration,
    parseDeclarations 4
      (ListParser.start
         [ListParser.ident "let" 1; ListParser.space 4; ListParser.ident "x" 5;
          ListParser.punct TokenEqual 6; ListParser.ident "y" 7;
          ListParser.punct TokenSemicolon 8;
          ListParser.ident "pub" 9; ListParser.space 12;
          ListParser.ident "foo" 13])
      TokenEOF
    = Ok ([VariableDecl d],
          ListParser.mkParser (ListParser.ident "foo" 13) [] []).
Proof. eexists. vm_compute. reflexivity. Qed.

(** * Further properties *)

(** ** Hexadecimal locations *)

Lemma spec_digitValue_range (c : ascii) (v : Z) :
  Hex.spec_digitValue c = Some v -> 0 <= v < 16.
Proof.
  rewrite <- HexFacts.fromHexChar_spec. apply HexFacts.fromHexChar_range.
Qed.

(** The code returns a byte sequence exactly when the specified decoding
    is defined, and then it is that sequence. *)
Lemma parseHexadecimalLocation_Ok (literal : string) (bytes : list Z) :
  Hex.parseHexadecimalLocation literal = Ok bytes <->
  Hex.spec_hexLocation literal = Some bytes.
Proof.
  pose proof (HexFacts.parseHexadecimalLocation_spec literal) as H.
  destruct (Hex.spec_hexLocation literal) as [bytes'|].
  - rewrite H. split; congruence.
  - destruct H as [e He]. rewrite He. split; discriminate.
Qed.

Lemma spec_hexLocation_padded (literal : string) :
  (2 <= String.length literal)%nat ->
  Hex.spec_hexLocation literal = Hex.spec_decodePairs (paddedDigits literal).
Proof.
  intros Hlen. unfold Hex.spec_hexLocation, paddedDigits, digitsOf.
  assert (Hl : List.length (list_ascii_of_string literal) = String.length literal).
  { clear Hlen. induction literal as [|c s IH]; cbn; congruence. }
  rewrite Hl.
  destruct (String.length literal <? 2)%nat eqn:E; [|reflexivity].
  apply Nat.ltb_lt in E. lia.
Qed.

Lemma spec_hexLocation_short (literal : string) :
  (String.length literal < 2)%nat -> Hex.spec_hexLocation literal = None.
Proof.
  intros Hlen. unfold Hex.spec_hexLocation.
  assert (Hl : List.length (list_ascii_of_string literal) = String.length literal).
  { clear Hlen. induction literal as [|c s IH]; cbn; congruence. }
  rewrite Hl. apply Nat.ltb_lt in Hlen. rewrite Hlen. reflexivity.
Qed.

Lemma spec_decodePairs_pair (x y : ascii) (l : list ascii) :
  Hex.spec_decodePairs (x :: y :: l) =
  match Hex.spec_digitValue x, Hex.spec_digitValue y, Hex.spec_decodePairs l with
  | Some h, Some lo, Some bs => Some (16 * h + lo :: bs)
  | _, _, _ => None
  end.
Proof. reflexivity. Qed.

Lemma spec_decodePairs_shape (digits : list ascii) (bytes : list Z) :
  Hex.spec_decodePairs digits = Some bytes ->
  Forall (fun b => 0 <= b < 256) bytes
  /\ List.length digits = (2 * List.length bytes)%nat
  /\ forallb Hex.isHexDigit digits = true.
Proof.
  revert bytes.
  induction digits as [|x|x y l IH] using HexFacts.pairs_ind; intros bytes H.
  - inversion H; subst. split; [constructor | split; reflexivity].
  - discriminate.
  - rewrite spec_decodePairs_pair in H.
    destruct (Hex.spec_digitValue x) as [h|] eqn:Hx; [|discriminate].
    destruct (Hex.spec_digitValue y) as [lo|] eqn:Hy; [|discriminate].
    destruct (Hex.spec_decodePairs l) as [bs|]; [|discriminate].
    injection H as H. subst bytes.
    destruct (IH bs eq_refl) as (Hall & Hlen & Hdig).
    apply spec_digitValue_range in Hx as Rx.
    apply spec_digitValue_range in Hy as Ry.
    split; [|split].
    + assert (E : 0 <= 16 * h + lo < 256) by lia.
      constructor; [exact E | exact Hall].
    + cbn [List.length]. lia.
    + cbn [forallb]. unfold Hex.isHexDigit at 1 2. rewrite Hx, Hy. exact Hdig.
Qed.

Lemma digits_are_literal_digits (chars : list ascii) :
  forallb Hex.isHexDigit (filter (fun c => negb (Ascii.eqb c "_")) chars) = true ->
  forallb (fun c => Hex.isHexDigit c || Ascii.eqb c "_") chars = true.
Proof.
  induction chars as [|c chars IH]; [reflexivity|].
  cbn. destruct (Ascii.eqb c "_") eqn:E; cbn.
  - rewrite orb_true_r. exact IH.
  - intros H. apply andb_true_iff in H. destruct H as [Hc H].
    rewrite Hc. cbn. apply IH. exact H.
Qed.

(** X1. [parseHexadecimalLocation] returns an address exactly on the
    well-formed literals: at least two characters, and after the first
    two nothing but hexadecimal digits and [_]. On every other string it
    panics. *)
Theorem parseHexadecimalLocation_succeeds_iff_well_formed (literal : string) :
  (exists bytes : list Z, Hex.parseHexadecimalLocation literal = Ok bytes)
  <-> Hex.isHexadecimalLiteral literal = true.
Proof.
  split.
  - intros [bytes H]. apply parseHexadecimalLocation_Ok in H.
    destruct (Nat.ltb_spec (String.length literal) 2) as [Hshort|Hlong].
    + rewrite (spec_hexLocation_short literal Hshort) in H. discriminate.
    + rewrite (spec_hexLocation_padded literal Hlong) in H.
      apply spec_decodePairs_shape in H. destruct H as (_ & _ & Hdig).
      unfold paddedDigits, digitsOf in Hdig.
      unfold Hex.isHexadecimalLiteral.
      destruct literal as [|c0 [|c1 tail]]; cbn in Hlong; try lia.
      cbn [list_ascii_of_string skipn] in *.
      apply digits_are_literal_digits.
      destruct (Nat.odd _); [|exact Hdig].
      cbn [forallb] in Hdig. apply andb_true_iff in Hdig. tauto.
  - intros Hwf.
    destruct (HexFacts.spec_hexLocation_defined literal Hwf) as [bytes Hbytes].
    exists bytes. apply parseHexadecimalLocation_Ok. exact Hbytes.
Qed.

(** X2. An address returned by [parseHexadecimalLocation] consists of
    bytes (values from 0 to 255), one for every two digits of the
    literal, rounded up. *)
Theorem parseHexadecimalLocation_address_shape (literal : string) (bytes : list Z) :
  Hex.parseHexadecimalLocation literal = Ok bytes ->
  Forall (fun b => 0 <= b < 256) bytes
  /\ List.length bytes = Nat.div2 (S (List.length (digitsOf literal))).
Proof.
  intros H. apply parseHexadecimalLocation_Ok in H.
  destruct (Nat.ltb_spec (String.length literal) 2) as [Hshort|Hlong].
  - rewrite (spec_hexLocation_short literal Hshort) in H. discriminate.
  - rewrite (spec_hexLocation_padded literal Hlong) in H.
    apply spec_decodePairs_shape in H. destruct H as (Hall & Hlen & _).
    split; [exact Hall|].
    unfold paddedDigits in Hlen.
    destruct (Nat.odd (List.length (digitsOf literal))) eqn:Hodd.
    + cbn [List.length] in Hlen. rewrite Hlen.
      rewrite Nat.div2_double. reflexivity.
    + rewrite Hlen. rewrite Nat.div2_succ_double. reflexivity.
Qed.

Lemma removeAll_idempotent (old : ascii) (s : string) :
  Hex.removeAll old (Hex.removeAll old s) = Hex.removeAll old s.
Proof.
  induction s as [|c s IH]; [reflexivity|].
  cbn. destruct (Ascii.eqb c old) eqn:E; [exact IH|].
  cbn. rewrite E, IH. reflexivity.
Qed.

(** X3. The two prefix characters are never inspected and the separators
    are dropped wherever they stand: a literal and the same literal with
    another prefix and its separators removed give the same result,
    address or panic. *)
Theorem parseHexadecimalLocation_ignores_prefix_and_separators
    (a b c d : ascii) (s : string) :
  Hex.parseHexadecimalLocation (String a (String b s)) =
  Hex.parseHexadecimalLocation (String c (String d (Hex.removeAll "_" s))).
Proof.
  unfold Hex.parseHexadecimalLocation. cbn [Hex.sliceFrom2 bind].
  rewrite removeAll_idempotent. reflexivity.
Qed.

Lemma Decode_error (src : list ascii) (bytes : list Z) (err : HexError) :
  Hex.Decode src = (bytes, Some err) ->
  Nat.even (List.length src) = true ->
  exists c : ascii,
    err = InvalidByteError c /\ In c src /\ Hex.fromHexChar c = None.
Proof.
  revert bytes.
  induction src as [|x|x y l IH] using HexFacts.pairs_ind; intros bytes H Heven.
  - discriminate.
  - discriminate.
  - cbn [Hex.Decode] in H.
    destruct (Hex.fromHexChar x) as [h|] eqn:Hx.
    + destruct (Hex.fromHexChar y) as [lo|] eqn:Hy.
      * destruct (Hex.Decode l) as [dst [e|]] eqn:Hl; inversion H; subst.
        destruct (IH dst eq_refl Heven) as (c0 & -> & Hin & Hc).
        exists c0. repeat split; [right; right; exact Hin | exact Hc].
      * inversion H; subst. exists y. repeat split; [cbn; auto | exact Hy].
    + inversion H; subst. exists x. repeat split; [cbn; auto | exact Hx].
Qed.

(** X4. The only panics of [parseHexadecimalLocation] are the slice
    bounds failure on a string shorter than the prefix, and the invalid
    byte error of the decoder, which names a character of the literal
    (after the prefix) that is neither a hexadecimal digit nor a
    separator. The odd-length error of the decoder never occurs. *)
Theorem parseHexadecimalLocation_panics (literal : string) (e : ParseError) :
  Hex.parseHexadecimalLocation literal = Panic e ->
  ((String.length literal < 2)%nat
   /\ e = RuntimeError "slice bounds out of range")
  \/ (exists c : ascii,
         e = HexDecodeError (InvalidByteError c)
         /\ In c (digitsOf literal)
         /\ Hex.isHexDigit c = false).
Proof.
  unfold Hex.parseHexadecimalLocation.
  destruct literal as [|c0 [|c1 tail]]; cbn [Hex.sliceFrom2 bind].
  - intros H. inversion H. left. split; [cbn; lia | reflexivity].
  - intros H. inversion H. left. split; [cbn; lia | reflexivity].
  - rewrite HexFacts.removeAll_filter, HexFacts.odd_length.
    unfold digitsOf. cbn [list_ascii_of_string skipn].
    set (digits := filter _ _).
    intros H. right.
    destruct (Nat.odd (List.length digits)) eqn:Hodd.
    + destruct (Hex.Decode ("0"%char :: digits)) as [address [err|]] eqn:Hd;
        [|discriminate].
      inversion H; subst; clear H.
      apply Decode_error in Hd.
      * destruct Hd as (c & -> & Hin & Hc). exists c.
        split; [reflexivity|].
        destruct Hin as [<-|Hin]; [discriminate Hc|].
        split; [exact Hin|].
        unfold Hex.isHexDigit. rewrite <- HexFacts.fromHexChar_spec, Hc.
        reflexivity.
      * cbn [List.length]. rewrite Nat.even_succ. exact Hodd.
    + destruct (Hex.Decode digits) as [address [err|]] eqn:Hd; [|discriminate].
      inversion H; subst; clear H.
      apply Decode_error in Hd.
      * destruct Hd as (c & -> & Hin & Hc). exists c.
        split; [reflexivity|]. split; [exact Hin|].
        unfold Hex.isHexDigit. rewrite <- HexFacts.fromHexChar_spec, Hc.
        reflexivity.
      * rewrite <- Nat.negb_odd, Hodd. reflexivity.
Qed.

Lemma spec_decodePairs_value (digits : list ascii) (bytes : list Z) (acc : Z) :
  Hex.spec_decodePairs digits = Some bytes ->
  numeralValueFrom acc digits
  = Some (fold_left (fun a b => a * 256 + b) bytes acc).
Proof.
  revert bytes acc.
  induction digits as [|x|x y l IH] using HexFacts.pairs_ind; intros bytes acc H.
  - inversion H; subst. reflexivity.
  - discriminate.
  - rewrite spec_decodePairs_pair in H. cbn [numeralValueFrom].
    destruct (Hex.spec_digitValue x) as [h|]; [|discriminate].
    destruct (Hex.spec_digitValue y) as [lo|]; [|discriminate].
    destruct (Hex.spec_decodePairs l) as [bs|]; [|discriminate].
    injection H as H. subst bytes.
    rewrite (IH bs _ eq_refl).
    transitivity
      (Some (fold_left (fun a b => a * 256 + b) bs (acc * 256 + (16 * h + lo))));
      [|reflexivity].
    f_equal. f_equal. lia.
Qed.

(** X5. An address denotes the number its literal denotes: read most
    significant byte first, the address is the value of the literal's
    digits read as one hexadecimal numeral. *)
Theorem parseHexadecimalLocation_preserves_value (literal : string) (bytes : list Z) :
  Hex.parseHexadecimalLocation literal = Ok bytes ->
  numeralValue (digitsOf literal) = Some (bytesValue bytes).
Proof.
  intros H. apply parseHexadecimalLocation_Ok in H.
  destruct (Nat.ltb_spec (String.length literal) 2) as [Hshort|Hlong].
  - rewrite (spec_hexLocation_short literal Hshort) in H. discriminate.
  - rewrite (spec_hexLocation_padded literal Hlong) in H.
    apply (spec_decodePairs_value _ _ 0) in H.
    unfold numeralValue, bytesValue. rewrite <- H.
    unfold paddedDigits.
    destruct (Nat.odd (List.length (digitsOf literal))); reflexivity.
Qed.

(** ** The dispatcher and the declaration list *)

Section FurtherParserFacts.

Context {syn : Syntax} {parser : Type}.
Context {cursor : Cursor parser} {collaborators : Collaborators parser}.

(** X6. The loop of [parseDeclaration] runs its body at most twice:
    whatever larger bound is put on the number of iterations, the result
    is that of [parseDeclaration]. *)
Theorem parseDeclaration_runs_at_most_twice (n fuel : nat) (p : parser) :
  parseDeclaration_loop (S (S n)) fuel AccessNotSpecified None p
  = parseDeclaration fuel p.
Proof.
  unfold parseDeclaration. apply parseDeclaration_loop_bound.
Qed.

Lemma valueIs_isKeyword (t : Token) (keyword : string) :
  Type_ t = TokenIdentifier ->
  valueIs (Value t) keyword = true -> isKeyword t keyword = true.
Proof.
  intros Ht Hv. rewrite (isKeyword_valueIs t keyword Ht). exact Hv.
Qed.

(** One iteration of the dispatcher loop that returns a declaration:
    either the keyword's sub-parser produced it, or an access modifier
    was parsed first and the next iteration returned it. *)
Lemma parseDeclaration_loop_Some
    (n fuel : nat) (access : Access) (accessPos : option Position)
    (p q : parser) (decl : Declaration) :
  parseDeclaration_loop (S n) fuel access accessPos p = Ok (Some decl, q) ->
  ProducedBy fuel access accessPos (skipSpaceAndComments true p) decl q
  \/ (access = AccessNotSpecified
      /\ isAccessModifierKeyword (current (skipSpaceAndComments true p)) = true
      /\ exists (a : Access) (q1 : parser),
           parseAccess (skipSpaceAndComments true p) = Ok (a, q1)
           /\ parseDeclaration_loop n fuel a
                (Some (TokenStartPos (current (skipSpaceAndComments true p)))) q1
              = Ok (Some decl, q)).
Proof.
  intros H. cbn [parseDeclaration_loop] in H.
  destruct (Type_ (current (skipSpaceAndComments true p))) eqn:Ht;
    try discriminate.
  destruct (valueIs _ keywordLet || valueIs _ keywordVar) eqn:Kvar.
  { left. repeat step_inv. cbn. split; [|assumption].
    apply orb_true_iff in Kvar.
    destruct Kvar as [K|K]; [left|right]; apply valueIs_isKeyword; assumption. }
  destruct (valueIs _ keywordFun) eqn:Kfun.
  { left. repeat step_inv. cbn. split; [|assumption].
    apply valueIs_isKeyword; assumption. }
  destruct (valueIs _ keywordImport) eqn:Kimport.
  { left. repeat step_inv. cbn. split; [|assumption].
    apply valueIs_isKeyword; assumption. }
  destruct (valueIs _ keywordEvent) eqn:Kevent.
  { left. repeat step_inv. cbn. split; [|assumption].
    apply valueIs_isKeyword; assumption. }
  destruct (valueIs _ keywordPriv || valueIs _ keywordPub || valueIs _ keywordAccess)
    eqn:Kmod; [|discriminate].
  destruct (negb (Access_eqb access AccessNotSpecified)) eqn:Ha; [discriminate|].
  right. split.
  { apply negb_false_iff in Ha. apply Access_eqb_eq in Ha. exact Ha. }
  split.
  { unfold isAccessModifierKeyword. rewrite !isKeyword_valueIs by exact Ht.
    exact Kmod. }
  apply bind_Ok in H. destruct H as ([a q1] & Hacc & H).
  exists a, q1. split; assumption.
Qed.

(** A returned declaration comes from the sub-parser of its keyword,
    run directly or after one access modifier. *)
Lemma parseDeclaration_Some
    (fuel : nat) (p q : parser) (decl : Declaration) :
  parseDeclaration fuel p = Ok (Some decl, q) ->
  ProducedBy fuel AccessNotSpecified None (skipSpaceAndComments true p) decl q
  \/ (isAccessModifierKeyword (current (skipSpaceAndComments true p)) = true
      /\ exists (access : Access) (q1 : parser),
           parseAccess (skipSpaceAndComments true p) = Ok (access, q1)
           /\ access <> AccessNotSpecified
           /\ ProducedBy fuel access
                (Some (TokenStartPos (current (skipSpaceAndComments true p))))
                (skipSpaceAndComments true q1) decl q).
Proof.
  unfold parseDeclaration. intros H.
  apply parseDeclaration_loop_Some in H.
  destruct H as [H|(_ & Hmod & a & q1 & Hacc & H)]; [left; exact H|].
  right. split; [exact Hmod|]. exists a, q1.
  pose proof (parseAccess_specified _ _ _ Hacc) as Hspec.
  split; [exact Hacc|]. split; [exact Hspec|].
  apply parseDeclaration_loop_Some in H.
  destruct H as [H|(Hnone & _)]; [exact H | contradiction].
Qed.

(** X7. Every declaration [parseDeclaration] returns is the result of
    the sub-parser of the keyword it found: either that keyword is the
    first significant token and the sub-parser ran with
    [AccessNotSpecified] and no access position, or an access modifier
    came first, and the sub-parser ran on the token after it with the
    access the modifier denotes and the modifier's start position. *)
Theorem parseDeclaration_dispatches
    (fuel : nat) (p q : parser) (decl : Declaration) :
  parseDeclaration fuel p = Ok (Some decl, q) ->
  ProducedBy fuel AccessNotSpecified None (skipSpaceAndComments true p) decl q
  \/ (isAccessModifierKeyword (current (skipSpaceAndComments true p)) = true
      /\ exists (access : Access) (q1 : parser),
           parseAccess (skipSpaceAndComments true p) = Ok (access, q1)
           /\ access <> AccessNotSpecified
           /\ ProducedBy fuel access
                (Some (TokenStartPos (current (skipSpaceAndComments true p))))
                (skipSpaceAndComments true q1) decl q).
Proof.
  apply parseDeclaration_Some.
Qed.

(** X8. When the declaration-list loop returns, the accumulated
    declarations are at the front of the result, unchanged and in order,
    and the parser is on the end token, on end-of-input, or on a token
    that starts neither a declaration nor an access modifier. *)
Theorem parseDeclarations_loop_returns
    (fuel : nat) (endTokenType : TokenType) (declarations ds : list Declaration)
    (p q : parser) :
  parseDeclarations_loop fuel endTokenType declarations p = Ok (ds, q) ->
  (exists parsed : list Declaration, ds = declarations ++ parsed)
  /\ (Type_ (current q) = endTokenType
      \/ Type_ (current q) = TokenEOF
      \/ (isDeclarationKeyword (current q) = false
          /\ isAccessModifierKeyword (current q) = false)).
Proof.
  revert declarations p.
  induction fuel as [|fuel IH]; intros declarations p H; [discriminate|].
  cbn [parseDeclarations_loop] in H.
  destruct (TokenType_eqb _ TokenSemicolon); [exact (IH _ _ H)|].
  destruct (TokenType_eqb _ endTokenType) eqn:Eend.
  { cbn [orb] in H. inversion H; subst; clear H.
    split; [exists []; rewrite app_nil_r; reflexivity|].
    left. apply TokenType_eqb_eq. exact Eend. }
  destruct (TokenType_eqb _ TokenEOF) eqn:Eeof.
  { cbn [orb] in H. inversion H; subst; clear H.
    split; [exists []; rewrite app_nil_r; reflexivity|].
    right. left. apply TokenType_eqb_eq. exact Eeof. }
  cbn [orb] in H.
  apply bind_Ok in H. destruct H as ([[d|] r] & Hdecl & H).
  - destruct (IH _ _ H) as ([parsed ->] & Hstop).
    split; [|exact Hstop].
    exists (d :: parsed). rewrite <- app_assoc. reflexivity.
  - inversion H; subst; clear H.
    split; [exists []; rewrite app_nil_r; reflexivity|].
    right. right. exact (parseDeclaration_loop_None _ _ _ _ _ _ Hdecl).
Qed.


(** Semicolons are separators whatever the end token is: a
    semicolon is consumed and the loop goes on, also when the caller
    names the semicolon as the end token; any other end token, and
    end-of-input, end the list and are not consumed. *)
Lemma parseDeclarations_loop_separators_and_end
    (fuel : nat) (endTokenType : TokenType) (declarations : list Declaration)
    (p : parser) :
  (Type_ (current (skipSpaceAndComments true p)) = TokenSemicolon ->
   parseDeclarations_loop (S fuel) endTokenType declarations p
   = parseDeclarations_loop fuel endTokenType declarations
       (next (skipSpaceAndComments true p)))
  /\ (Type_ (current (skipSpaceAndComments true p)) <> TokenSemicolon ->
      (Type_ (current (skipSpaceAndComments true p)) = endTokenType
       \/ Type_ (current (skipSpaceAndComments true p)) = TokenEOF) ->
      parseDeclarations_loop (S fuel) endTokenType declarations p
      = Ok (declarations, skipSpaceAndComments true p)).
Proof.
  split.
  - intros Hsemi. cbn [parseDeclarations_loop].
    apply TokenType_eqb_eq in Hsemi. rewrite Hsemi. reflexivity.
  - intros Hsemi Hend. cbn [parseDeclarations_loop].
    apply TokenType_eqb_neq in Hsemi. rewrite Hsemi.
    destruct Hend as [Hend|Hend]; apply TokenType_eqb_eq in Hend; rewrite Hend;
      [|rewrite orb_true_r]; reflexivity.
Qed.

End FurtherParserFacts.

(** ** Access modifiers, variable and event declarations *)

(** One step of tracing a panic back to where it was raised. *)
Ltac step_panic :=
  match goal with
  | H : Ok _ = Panic _ |- _ => discriminate H
  | H : OutOfFuel = Panic _ |- _ => discriminate H
  | H : Panic _ = Panic _ |- _ => inversion H; subst; clear H
  | H : bind ?r _ = Panic _ |- _ =>
      let E := fresh "E" in
      destruct r as [?| |] eqn:E; cbn [bind] in H
  | H : match ?x with (_, _) => _ end = Panic _ |- _ =>
      tryif is_var x then destruct x else destruct x eqn:?
  | H : match ?x with Some _ => _ | None => _ end = Panic _ |- _ =>
      tryif is_var x then destruct x else destruct x eqn:?
  | H : (if ?c then _ else _) = Panic _ |- _ => destruct c eqn:?
  end.

Section SubParserFacts.

Context {syn : Syntax} {parser : Type}.
Context {cursor : Cursor parser} {collaborators : Collaborators parser}.

(** X10. What an accepted access modifier means and where it ends:
    [priv] is private and ends after the keyword; [pub] alone is public
    and leaves the parser on the next significant token; [pub] followed
    by [(] must go on with [set] and [)] and is public-settable;
    [access] takes [(], one of [all], [account], [contract], [self] for
    public, account, contract, private, and [)]. *)
Theorem parseAccess_accepts (p q : parser) (access : Access) :
  parseAccess p = Ok (access, q) ->
  (valueIs (Value (current p)) keywordPriv = true
   /\ access = AccessPrivate /\ q = next p)
  \/ (valueIs (Value (current p)) keywordPub = true
      /\ Is (current (advance p)) TokenParenOpen = false
      /\ access = AccessPublic /\ q = advance p)
  \/ (valueIs (Value (current p)) keywordPub = true
      /\ Is (current (advance p)) TokenParenOpen = true
      /\ isKeyword (current (advance (advance p))) keywordSet = true
      /\ access = AccessPublicSettable
      /\ exists t : Token,
           mustOne TokenParenClose (advance (advance (advance p))) = Ok (t, q))
  \/ (valueIs (Value (current p)) keywordAccess = true
      /\ exists (t1 t2 : Token) (q1 : parser),
           mustOne TokenParenOpen (advance p) = Ok (t1, q1)
           /\ Type_ (current (skipSpaceAndComments true q1)) = TokenIdentifier
           /\ mustOne TokenParenClose (advance (skipSpaceAndComments true q1))
              = Ok (t2, q)
           /\ ((valueIs (Value (current (skipSpaceAndComments true q1))) keywordAll = true
                /\ access = AccessPublic)
               \/ (valueIs (Value (current (skipSpaceAndComments true q1))) keywordAccount = true
                   /\ access = AccessAccount)
               \/ (valueIs (Value (current (skipSpaceAndComments true q1))) keywordContract = true
                   /\ access = AccessContract)
               \/ (valueIs (Value (current (skipSpaceAndComments true q1))) keywordSelf = true
                   /\ access = AccessPrivate))).
Proof.
  unfold parseAccess. fold (advance p). fold (advance (advance p)).
  fold (advance (advance (advance p))).
  intros H.
  destruct (valueIs (Value (current p)) keywordPriv) eqn:Kpriv.
  { inversion H; subst. left. auto. }
  destruct (valueIs (Value (current p)) keywordPub) eqn:Kpub.
  { destruct (Is (current (advance p)) TokenParenOpen) eqn:Hopen; cbn [negb] in H.
    - right. right. left.
      destruct (Is (current (advance (advance p))) TokenIdentifier) eqn:Hid;
        cbn [negb] in H; [|discriminate].
      destruct (valueIs (Value (current (advance (advance p)))) keywordSet) eqn:Hset;
        cbn [negb] in H; [|discriminate].
      repeat step_inv.
      repeat split; try reflexivity.
      + unfold isKeyword. rewrite Hid, Hset. reflexivity.
      + eauto.
    - inversion H; subst. right. left. auto. }
  destruct (valueIs (Value (current p)) keywordAccess) eqn:Kaccess; [|discriminate].
  right. right. right. split; [reflexivity|].
  apply bind_Ok in H. destruct H as ([t1 q1] & Hopen & H).
  fold (advance (skipSpaceAndComments true q1)) in H.
  destruct (Is (current (skipSpaceAndComments true q1)) TokenIdentifier) eqn:Hid;
    cbn [negb] in H; [|discriminate].
  apply TokenType_eqb_eq in Hid.
  apply bind_Ok in H. destruct H as (a & Ha & H).
  apply bind_Ok in H. destruct H as ([t2 q2] & Hclose & H).
  inversion H; subst; clear H.
  exists t1, t2, q1. repeat split; try assumption.
  repeat match type of Ha with
         | (if ?c then _ else _) = Ok _ => destruct c eqn:?
         end; try discriminate; inversion Ha; subst; tauto.
Qed.


(** X12. The fields of a returned variable declaration: the access it
    was given; constant exactly when the keyword is [let]; the start
    position of the access modifier if one was recorded, of the keyword
    otherwise; the identifier of the token after the keyword; and a type
    annotation exactly when a colon follows the identifier, namely the
    one the type-annotation parser returns after the colon. *)
Theorem parseVariableDeclaration_fields
    (p q : parser) (access : Access) (accessPos : option Position)
    (d : VariableDeclaration) :
  parseVariableDeclaration p access accessPos = Ok (d, q) ->
  VariableDeclaration_Access d = access
  /\ VariableDeclaration_IsConstant d = valueIs (Value (current p)) keywordLet
  /\ VariableDeclaration_StartPos d
     = match accessPos with
       | Some pos => pos
       | None => TokenStartPos (current p)
       end
  /\ Type_ (current (advance p)) = TokenIdentifier
  /\ tokenToIdentifier (current (advance p)) = Ok (VariableDeclaration_Identifier d)
  /\ ((Is (current (advance (advance p))) TokenColon = false
       /\ VariableDeclaration_TypeAnnotation d = None)
      \/ (Is (current (advance (advance p))) TokenColon = true
          /\ exists (ty : TypeAnnotation) (r : parser),
               parseTypeAnnotation (advance (advance (advance p))) = Ok (ty, r)
               /\ VariableDeclaration_TypeAnnotation d = Some ty)).
Proof.
  intros H. unfold parseVariableDeclaration in H.
  fold (advance p) in H. fold (advance (advance p)) in H.
  fold (advance (advance (advance p))) in H.
  destruct (Is (current (advance p)) TokenIdentifier) eqn:Hid;
    cbn [negb] in H; [|discriminate].
  apply TokenType_eqb_eq in Hid.
  repeat step_inv; try discriminate; cbn;
    repeat split; try assumption; try reflexivity; eauto 6.
Qed.

(** X13. Every panic of [parseVariableDeclaration] is the missing
    identifier after the keyword, the missing transfer, or a panic of
    one of its collaborators: the identifier conversion, the
    type-annotation parser or the expression parser. *)
Theorem parseVariableDeclaration_panics
    (p : parser) (access : Access) (accessPos : option Position) (e : ParseError) :
  parseVariableDeclaration p access accessPos = Panic e ->
  (Type_ (current (advance p)) <> TokenIdentifier
   /\ e = Errorf "expected identifier after start of variable declaration, got %s"
            [ArgTokenType (Type_ (current (advance p)))])
  \/ e = Errorf "expected transfer" []
  \/ tokenToIdentifier (current (advance p)) = Panic e
  \/ (exists r : parser, parseTypeAnnotation r = Panic e)
  \/ (exists r : parser, parseExpression r lowestBindingPower = Panic e).
Proof.
  intros H. unfold parseVariableDeclaration in H. fold (advance p) in H.
  destruct (Is (current (advance p)) TokenIdentifier) eqn:Hid; cbn [negb] in H.
  - repeat step_panic; eauto 8.
  - inversion H; subst. left. apply TokenType_eqb_neq in Hid. auto.
Qed.

(** X14. After a second transfer operator a second expression is
    required: when the declaration parses up to the first value and a
    transfer operator follows it, a panic of the expression parser on
    what comes next is the result of the whole declaration. *)
Theorem second_expression_is_required
    (p q r : parser) (access : Access) (accessPos : option Position)
    (identifier : Identifier) (value : Expression) (e : ParseError) :
  Is (current (advance p)) TokenIdentifier = true ->
  tokenToIdentifier (current (advance p)) = Ok identifier ->
  TypeAnnotationEndsAt (advance (advance p)) q ->
  isTransferTokenType (Type_ (current (skipSpaceAndComments true q))) = true ->
  parseExpression (next (skipSpaceAndComments true q)) lowestBindingPower
  = Ok (value, r) ->
  isTransferTokenType (Type_ (current (skipSpaceAndComments true r))) = true ->
  parseExpression (next (skipSpaceAndComments true r)) lowestBindingPower
  = Panic e ->
  parseVariableDeclaration p access accessPos = Panic e.
Proof.
  intros Hid Hname Hannot Hfirst Hvalue Hsecond Hpanic.
  unfold parseVariableDeclaration. fold (advance p).
  rewrite Hid. cbn [negb]. rewrite Hname. cbn [bind].
  fold (advance (advance p)).
  destruct (parseTransfer_cases (skipSpaceAndComments true q))
    as [[_ (t & Ht & _)]|[Hnone _]]; [|congruence].
  destruct (parseTransfer_cases (skipSpaceAndComments true r))
    as [[_ (t' & Ht' & _)]|[Hnone _]]; [|congruence].
  destruct Hannot as [[Hcolon ->]|[Hcolon (ty & Hty)]]; rewrite Hcolon.
  - cbn [bind]. rewrite Ht, Hvalue. cbn [bind]. rewrite Ht', Hpanic.
    reflexivity.
  - fold (advance (advance (advance p))). rewrite Hty. cbn [bind].
    rewrite Ht, Hvalue. cbn [bind]. rewrite Ht', Hpanic. reflexivity.
Qed.

(** X15. The positions and the name of a returned event declaration: the
    identifier is the text of the token after [event], at that token's
    start; the range starts at the access modifier if one was recorded,
    at the keyword otherwise, and ends where the parameter list ends;
    the initializer starts where the parameter list starts. The
    parameter list is parsed right after the name, without skipping
    whitespace first. *)
Theorem parseEventDeclaration_positions
    (p q : parser) (access : Access) (accessPos : option Position)
    (d : CompositeDeclaration) :
  parseEventDeclaration p access accessPos = Ok (d, q) ->
  exists (name : string) (parameterList : ParameterList),
    Type_ (current (advance p)) = TokenIdentifier
    /\ Value (current (advance p)) = ValueString name
    /\ parseParameterList (next (advance p)) = Ok (parameterList, q)
    /\ CompositeDeclaration_Identifier d
       = mkIdentifier name (TokenStartPos (current (advance p)))
    /\ CompositeDeclaration_Range d
       = mkRange
           (match accessPos with
            | Some pos => pos
            | None => TokenStartPos (current p)
            end)
           (EndPos (ParameterList_Range parameterList))
    /\ (forall (members : Members) (initializer : SpecialFunctionDeclaration)
               (f : FunctionDeclaration),
           CompositeDeclaration_Members d = Some members ->
           In initializer (Members_SpecialFunctions members) ->
           SpecialFunctionDeclaration_FunctionDeclaration initializer = Some f ->
           FunctionDeclaration_StartPos f
           = StartPos (ParameterList_Range parameterList)).
Proof.
  intros H. unfold parseEventDeclaration in H. fold (advance p) in H.
  destruct (Is (current (advance p)) TokenIdentifier) eqn:Hid;
    cbn [negb] in H; [|discriminate].
  apply TokenType_eqb_eq in Hid.
  apply bind_Ok in H. destruct H as (name & Hname & H).
  apply bind_Ok in H. destruct H as ([parameterList r] & Hlist & H).
  inversion H; subst; clear H.
  exists name, parameterList.
  split; [exact Hid|]. split.
  { unfold assertString in Hname.
    destruct (Value (current (advance p))); inversion Hname; reflexivity. }
  split; [exact Hlist|]. split; [reflexivity|]. split; [reflexivity|].
  intros members initializer f Hm Hin Hf. cbn in Hm.
  inversion Hm; subst; clear Hm. cbn in Hin.
  destruct Hin as [<-|[]]. cbn in Hf. inversion Hf; subst. reflexivity.
Qed.

(** X16. Every panic of [parseEventDeclaration] is the missing name
    after the keyword, the failed conversion of a name token whose
    payload is not a string, or a panic of the parameter-list parser. *)
Theorem parseEventDeclaration_panics
    (p : parser) (access : Access) (accessPos : option Position) (e : ParseError) :
  parseEventDeclaration p access accessPos = Panic e ->
  (Type_ (current (advance p)) <> TokenIdentifier
   /\ e = Errorf "expected identifier after start of event declaration, got %s"
            [ArgTokenType (Type_ (current (advance p)))])
  \/ (Type_ (current (advance p)) = TokenIdentifier
      /\ (forall s : string, Value (current (advance p)) <> ValueString s)
      /\ e = RuntimeError "interface conversion: interface {} is not string")
  \/ parseParameterList (next (advance p)) = Panic e.
Proof.
  intros H. unfold parseEventDeclaration in H. fold (advance p) in H.
  destruct (Is (current (advance p)) TokenIdentifier) eqn:Hid; cbn [negb] in H.
  - apply TokenType_eqb_eq in Hid.
    destruct (assertString (Value (current (advance p)))) as [name| |] eqn:Hname;
      cbn [bind] in H.
    + repeat step_panic. right. right. reflexivity.
    + inversion H; subst. right. left. split; [exact Hid|].
      unfold assertString in Hname.
      destruct (Value (current (advance p))); inversion Hname; subst;
        split; try reflexivity; intros s Hs; discriminate Hs.
    + discriminate.
  - inversion H; subst. left. apply TokenType_eqb_neq in Hid. auto.
Qed.

End SubParserFacts.

(** ** Import declarations *)

Section ImportFacts.

Context {syn : Syntax} {parser : Type}.
Context {cursor : Cursor parser} {collaborators : Collaborators parser}.

(** The state of the closures with more imported names. *)
Lemma parseMoreIdentifiers_loop_names (p q : parser) (names : list Identifier) :
  NameList p names q ->
  valueIs (Value (current p)) keywordFrom = false ->
  forall (fuel : nat) (st : ImportState) (p0 : parser),
    advance p0 = p ->
    (2 * List.length names <= fuel)%nat ->
    parseMoreIdentifiers_loop fuel false st p0
    = parseLocation
        (mkImportState (identifiers st ++ names)
           (location st) (locationPos st) (endPos st))
        (advance q).
Proof.
  intros Hnames.
  induction Hnames as [p name Ht Hname Hfrom
                      |p q name names Ht Hname Hcomma Hnext _ IH];
    intros Hhead fuel st p0 Hp0 Hfuel; cbn [List.length] in Hfuel.
  - destruct fuel as [|[|fuel]]; try lia.
    cbn [parseMoreIdentifiers_loop]. fold (advance p0). rewrite Hp0.
    rewrite Ht, Hhead, Hname. cbn [bind]. fold (advance p).
    apply isKeyword_true in Hfrom. destruct Hfrom as [Hft Hfv].
    rewrite Hft, Hfv. cbn. reflexivity.
  - destruct fuel as [|[|fuel]]; try lia.
    cbn [parseMoreIdentifiers_loop]. fold (advance p0). rewrite Hp0.
    rewrite Ht, Hhead, Hname. cbn [bind]. fold (advance p).
    rewrite Hcomma. cbn [negb].
    rewrite (IH Hnext fuel _ (advance p) eq_refl) by lia.
    cbn [identifiers location locationPos endPos].
    rewrite <- app_assoc. reflexivity.
Qed.

(** X17. The imported names are collected in source order: for one or
    more names separated by commas and followed by [from], the import
    parser goes on to parse the location after [from] with exactly these
    names, in their order, as the identifiers. Two loop iterations per
    name are enough. *)
Theorem import_names_in_source_order
    (fuel : nat) (p q : parser) (names : list Identifier) :
  NameList (advance p) names q ->
  (2 * List.length names <= fuel)%nat ->
  parseImportDeclaration fuel p
  = ('(st, r) <- parseLocation
                   (mkImportState names None zeroPosition zeroPosition)
                   (advance q) ;;
     Ok (importDeclarationOf (TokenStartPos (current p)) st, r)).
Proof.
  intros Hnames Hfuel.
  unfold parseImportDeclaration. fold (advance p).
  inversion Hnames as [p1 name Ht Hname Hfrom
                      |p1 q1 name rest Ht Hname Hcomma Hnext Hrest]; subst.
  - rewrite Ht, Hname. cbn [bind]. fold (advance (advance p)).
    apply isKeyword_true in Hfrom. destruct Hfrom as [Hft Hfv].
    rewrite Hft. unfold maybeParseFromIdentifier. rewrite Hfv.
    cbn [valueIs]. fold (advance (advance (advance p))).
    reflexivity.
  - rewrite Ht, Hname. cbn [bind]. fold (advance (advance p)).
    rewrite Hcomma. unfold parseMoreIdentifiers.
    cbn [List.length] in Hfuel.
    rewrite (parseMoreIdentifiers_loop_names _ _ _ Hrest Hnext fuel _
               (advance (advance p)) eq_refl) by lia.
    reflexivity.
Qed.

Lemma parseStringOrAddressLocation_Ok (st st' : ImportState) (p q : parser) :
  parseStringOrAddressLocation st p = Ok (st', q) ->
  identifiers st' = identifiers st /\ LocatedAt st st' p q.
Proof.
  unfold parseStringOrAddressLocation, LocatedAt. intros H.
  destruct (Type_ (current p)) eqn:Ht; cbn [bind] in H; try discriminate.
  - repeat step_inv. cbn. repeat split. left. eauto 6.
  - repeat step_inv. cbn. repeat split. right. eauto 6.
Qed.

Lemma parseLocation_Ok (st st' : ImportState) (p q : parser) :
  parseLocation st p = Ok (st', q) ->
  identifiers st' = identifiers st /\ LocatedAt st st' p q.
Proof.
  unfold parseLocation. intros H.
  destruct (Type_ (current p)) eqn:Ht; try discriminate;
    apply parseStringOrAddressLocation_Ok; exact H.
Qed.

Lemma parseMoreIdentifiers_loop_Ok
    (fuel : nat) (expect : bool) (st st' : ImportState) (p q : parser) :
  parseMoreIdentifiers_loop fuel expect st p = Ok (st', q) ->
  exists q0 : parser, LocatedAt st st' q0 q.
Proof.
  revert expect st p.
  induction fuel as [|fuel IH]; intros expect st p H; [discriminate|].
  cbn [parseMoreIdentifiers_loop] in H.
  destruct (Type_ (current (skipSpaceAndComments true (next p))));
    try discriminate.
  - destruct (valueIs _ keywordFrom).
    + destruct (negb expect); [discriminate|].
      apply parseLocation_Ok in H. destruct H as [_ H]. eauto.
    + apply bind_Ok in H. destruct H as (name & _ & H).
      apply IH in H. destruct H as [q0 H]. exists q0. exact H.
  - destruct (negb expect); [discriminate|].
    apply IH in H. destruct H as [q0 H]. exists q0. exact H.
Qed.

(** X18. Every import declaration the parser returns starts at the
    [import] keyword and is of one of two shapes. Either it has no
    location, and then it has no identifiers either and the parser is on
    end-of-input; or it has a location read from a string or hexadecimal
    literal token, the location position and the range end are the start
    and end of that token, and the parser is past it. So a declaration
    with imported names always has a location. *)
Theorem parseImportDeclaration_shapes
    (fuel : nat) (p q : parser) (d : ImportDeclaration) :
  parseImportDeclaration fuel p = Ok (d, q) ->
  StartPos (ImportDeclaration_Range d) = TokenStartPos (current p)
  /\ ((ImportDeclaration_Location d = None
       /\ ImportDeclaration_Identifiers d = []
       /\ Type_ (current q) = TokenEOF)
      \/ (exists q0 : parser,
             ImportDeclaration_LocationPos d = TokenStartPos (current q0)
             /\ EndPos (ImportDeclaration_Range d) = TokenEndPos (current q0)
             /\ ((Type_ (current q0) = TokenString
                  /\ (exists s : string,
                         ImportDeclaration_Location d = Some (StringLocation s))
                  /\ exists errs : list ParseError, q = next (report errs q0))
                 \/ (Type_ (current q0) = TokenHexadecimalLiteral
                     /\ (exists address : list Z,
                            ImportDeclaration_Location d
                            = Some (AddressLocation address))
                     /\ q = next q0)))).
Proof.
  intros H. unfold parseImportDeclaration in H. fold (advance p) in H.
  apply bind_Ok in H. destruct H as ([st r] & Hst & H).
  inversion H; subst; clear H. cbn.
  split; [reflexivity|].
  destruct (Type_ (current (advance p))) eqn:Ht; try discriminate.
  - apply bind_Ok in Hst. destruct Hst as (name & Hname & Hst).
    fold (advance (advance p)) in Hst.
    destruct (Type_ (current (advance (advance p)))) eqn:Ht2; try discriminate.
    + inversion Hst; subst; clear Hst. left. cbn. auto.
    + unfold maybeParseFromIdentifier in Hst.
      destruct (valueIs _ keywordFrom); [|discriminate].
      apply parseLocation_Ok in Hst. destruct Hst as [_ Hloc].
      right. eexists. exact Hloc.
    + apply parseMoreIdentifiers_loop_Ok in Hst. destruct Hst as [q0 Hloc].
      right. exists q0. exact Hloc.
  - apply parseStringOrAddressLocation_Ok in Hst. destruct Hst as [_ Hloc].
    right. eexists. exact Hloc.
  - apply parseStringOrAddressLocation_Ok in Hst. destruct Hst as [_ Hloc].
    right. eexists. exact Hloc.
Qed.

(** X19. A malformed list of imported names is fatal: after a first
    name and a comma, a second comma, the keyword [from], and
    end-of-input each raise their own error. *)
Theorem import_rejects_malformed_name_list
    (fuel : nat) (p : parser) (name : Identifier) :
  Type_ (current (advance p)) = TokenIdentifier ->
  tokenToIdentifier (current (advance p)) = Ok name ->
  Type_ (current (advance (advance p))) = TokenComma ->
  (Type_ (current (advance (advance (advance p)))) = TokenComma ->
   parseImportDeclaration (S fuel) p
   = Panic (Errorf "expected %s or keyword %q, got %s"
              [ArgTokenType TokenIdentifier; ArgString keywordFrom;
               ArgTokenType TokenComma]))
  /\ (isKeyword (current (advance (advance (advance p)))) keywordFrom = true ->
      parseImportDeclaration (S fuel) p
      = Panic (Errorf "expected %s, got keyword %q"
                 [ArgTokenType TokenIdentifier;
                  ArgValue (ValueString keywordFrom)]))
  /\ (Type_ (current (advance (advance (advance p)))) = TokenEOF ->
      parseImportDeclaration (S fuel) p
      = Panic (Errorf "unexpected end in import declaration: expected %s or %s"
                 [ArgTokenType TokenIdentifier; ArgTokenType TokenComma])).
Proof.
  intros Ht Hname Hcomma.
  unfold parseImportDeclaration. fold (advance p).
  rewrite Ht, Hname. cbn [bind]. fold (advance (advance p)).
  rewrite Hcomma. unfold parseMoreIdentifiers.
  cbn [parseMoreIdentifiers_loop]. fold (advance (advance (advance p))).
  split; [|split].
  - intros H. rewrite H. reflexivity.
  - intros H. apply isKeyword_true in H. destruct H as [H1 H2].
    rewrite H1, H2. reflexivity.
  - intros H. rewrite H. reflexivity.
Qed.

(** X20. An identifier is not accepted as a location: after [from] an
    identifier token is a fatal error, and so is, after a first
    identifier, a second identifier other than [from]. Only an
    identifier followed by end-of-input gets through. *)
Theorem import_rejects_identifier_locations
    (fuel : nat) (p : parser) (name : Identifier) :
  Type_ (current (advance p)) = TokenIdentifier ->
  tokenToIdentifier (current (advance p)) = Ok name ->
  Type_ (current (advance (advance p))) = TokenIdentifier ->
  (valueIs (Value (current (advance (advance p)))) keywordFrom = false ->
   parseImportDeclaration fuel p
   = Panic (Errorf "unexpected identifier in import declaration: got %q, expected %q"
              [ArgValue (Value (current (advance (advance p))));
               ArgString keywordFrom]))
  /\ (valueIs (Value (current (advance (advance p)))) keywordFrom = true ->
      Type_ (current (advance (advance (advance p)))) = TokenIdentifier ->
      parseImportDeclaration fuel p
      = Panic (Errorf
                 "unexpected token in import declaration: got %s, expected string, address, or identifier"
                 [ArgTokenType TokenIdentifier])).
Proof.
  intros Ht Hname Ht2.
  unfold parseImportDeclaration. fold (advance p).
  rewrite Ht, Hname. cbn [bind]. fold (advance (advance p)).
  rewrite Ht2. unfold maybeParseFromIdentifier.
  split.
  - intros H. rewrite H. reflexivity.
  - intros H Ht3. rewrite H. fold (advance (advance (advance p))).
    unfold parseLocation. rewrite Ht3. reflexivity.
Qed.

(** X21. An import cut short by end-of-input is fatal when the end comes
    right after [import] or right after [from]. *)
Theorem import_rejects_truncation (fuel : nat) (p : parser) :
  (Type_ (current (advance p)) = TokenEOF ->
   parseImportDeclaration fuel p
   = Panic (Errorf
              "unexpected end in import declaration: expected string, address, or identifier"
              []))
  /\ (forall name : Identifier,
         Type_ (current (advance p)) = TokenIdentifier ->
         tokenToIdentifier (current (advance p)) = Ok name ->
         isKeyword (current (advance (advance p))) keywordFrom = true ->
         Type_ (current (advance (advance (advance p)))) = TokenEOF ->
         parseImportDeclaration fuel p
         = Panic (Errorf
                    "unexpected token in import declaration: got %s, expected string, address, or identifier"
                    [ArgTokenType TokenEOF])).
Proof.
  split.
  - intros Ht. unfold parseImportDeclaration. fold (advance p).
    rewrite Ht. reflexivity.
  - intros name Ht Hname Hfrom Heof.
    unfold parseImportDeclaration. fold (advance p).
    rewrite Ht, Hname. cbn [bind]. fold (advance (advance p)).
    apply isKeyword_true in Hfrom. destruct Hfrom as [Hft Hfv].
    rewrite Hft. unfold maybeParseFromIdentifier. rewrite Hfv. cbn [valueIs].
    fold (advance (advance (advance p))).
    unfold parseLocation. rewrite Heof. reflexivity.
Qed.

(** X22. Diagnostics of the string-literal decoder are soft: an import
    whose location is a string literal returns the decoded string as
    its location, whatever diagnostics the decoder gives, and these are
    reported to the parser before it moves past the literal. *)
Theorem import_string_location_reports_diagnostics
    (fuel : nat) (p : parser) (literal : string) :
  Type_ (current (advance p)) = TokenString ->
  Value (current (advance p)) = ValueString literal ->
  parseImportDeclaration fuel p
  = Ok (mkImportDeclaration
          []
          (Some (StringLocation (fst (parseStringLiteral literal))))
          (mkRange (TokenStartPos (current p)) (TokenEndPos (current (advance p))))
          (TokenStartPos (current (advance p))),
        next (report (snd (parseStringLiteral literal)) (advance p))).
Proof.
  intros Ht Hv.
  unfold parseImportDeclaration. fold (advance p).
  rewrite Ht. unfold parseStringOrAddressLocation.
  rewrite Ht, Hv. cbn [assertString bind].
  destruct (parseStringLiteral literal) as [parsed errs]. reflexivity.
Qed.

End ImportFacts.

(** ** Declarations as the dispatcher returns them *)

Section DispatchedFacts.

Context {syn : Syntax} {parser : Type}.
Context {cursor : Cursor parser} {collaborators : Collaborators parser}.






(** X24. An access modifier in front of [import] is accepted and has no
    effect: the declaration is the one the import parser returns from
    the [import] keyword on, whichever access the modifier denotes. *)
Theorem import_discards_access_modifier
    (fuel : nat) (p q : parser) (access : Access) :
  isAccessModifierKeyword (current (skipSpaceAndComments true p)) = true ->
  parseAccess (skipSpaceAndComments true p) = Ok (access, q) ->
  isKeyword (current (skipSpaceAndComments true q)) keywordImport = true ->
  parseDeclaration fuel p =
  ('(d, r) <- parseImportDeclaration fuel (skipSpaceAndComments true q) ;;
   Ok (Some (ImportDecl d), r)).
Proof.
  intros Hmod Haccess Himport.
  apply isKeyword_true in Himport. destruct Himport as [Ht' Hv'].
  unfold parseDeclaration. cbn [parseDeclaration_loop].
  unfold isAccessModifierKeyword in Hmod.
  assert (Hk : exists k,
             Type_ (current (skipSpaceAndComments true p)) = TokenIdentifier
             /\ Value (current (skipSpaceAndComments true p)) = ValueString k
             /\ (k = keywordPriv \/ k = keywordPub \/ k = keywordAccess)).
  { repeat (apply orb_true_iff in Hmod; destruct Hmod as [Hmod|Hmod]);
      apply isKeyword_true in Hmod; destruct Hmod; eauto 6. }
  destruct Hk as (k & Ht & Hv & Hk).
  rewrite Ht, Hv.
  destruct Hk as [-> | [-> | ->]]; cbn -[parseImportDeclaration];
    rewrite Haccess; cbn [bind]; rewrite Ht', Hv'; reflexivity.
Qed.

End DispatchedFacts.

(** ** Memory metering of the runtime tests *)

Module MeteringFacts.

Import Metering.

Lemma find_testUseMemory (meter : Meter) (usage : MemoryUsage) (kind : MemoryKind) :
  MeterMap.find kind (testUseMemory meter usage)
  = if N.eqb (Kind usage) kind
    then Some (wrap64 (read meter kind + Amount usage))
    else MeterMap.find kind meter.
Proof.
  unfold testUseMemory, read.
  destruct (N.eqb_spec (Kind usage) kind) as [E|E].
  - rewrite MeterMapFacts.add_eq_o by exact E. rewrite E. reflexivity.
  - rewrite MeterMapFacts.add_neq_o by exact E. reflexivity.
Qed.

Lemma wrap64_add_l (a b : Z) : wrap64 (wrap64 a + b) = wrap64 (a + b).
Proof. unfold wrap64. apply Zplus_mod_idemp_l. Qed.

Lemma total_unused (kind : MemoryKind) (usages : list MemoryUsage) :
  used kind usages = false -> total kind usages = 0.
Proof.
  induction usages as [|u usages IH]; [reflexivity|].
  cbn [used existsb total fold_right]. intros H.
  apply orb_false_iff in H. destruct H as [Hu Hrest].
  rewrite Hu. apply IH. exact Hrest.
Qed.

(** The entry of a kind after a list of usages, from any meter. *)
Lemma find_useAll (usages : list MemoryUsage) (meter : Meter) (kind : MemoryKind) :
  MeterMap.find kind (useAll meter usages)
  = if used kind usages
    then Some (wrap64 (read meter kind + total kind usages))
    else MeterMap.find kind meter.
Proof.
  unfold useAll. revert meter.
  induction usages as [|u usages IH]; intros meter; [reflexivity|].
  cbn [fold_left]. rewrite IH.
  cbn [used existsb total fold_right].
  fold (used kind usages). fold (total kind usages).
  unfold read at 1. rewrite find_testUseMemory.
  destruct (N.eqb (Kind u) kind); cbn [orb].
  - destruct (used kind usages) eqn:Hused.
    + rewrite wrap64_add_l. f_equal. f_equal. lia.
    + rewrite (total_unused kind usages Hused). f_equal. f_equal. lia.
  - reflexivity.
Qed.

Lemma total_Permutation (kind : MemoryKind) (usages usages' : list MemoryUsage) :
  Permutation usages usages' -> total kind usages = total kind usages'.
Proof.
  intros H. induction H as [|u l l' _ IH|u v l|l l' l'' _ IH1 _ IH2].
  - reflexivity.
  - cbn [total fold_right]. fold (total kind l). fold (total kind l').
    rewrite IH. reflexivity.
  - cbn [total fold_right]. fold (total kind l).
    destruct (N.eqb (Kind u) kind), (N.eqb (Kind v) kind); lia.
  - congruence.
Qed.

Lemma used_Permutation (kind : MemoryKind) (usages usages' : list MemoryUsage) :
  Permutation usages usages' -> used kind usages = used kind usages'.
Proof.
  intros H. induction H as [|u l l' _ IH|u v l|l l' l'' _ IH1 _ IH2].
  - reflexivity.
  - cbn [used existsb]. fold (used kind l). fold (used kind l').
    rewrite IH. reflexivity.
  - cbn [used existsb].
    destruct (N.eqb (Kind u) kind), (N.eqb (Kind v) kind); reflexivity.
  - congruence.
Qed.

(** X25. A meter filled through [testUseMemory] from the empty map holds,
    for every memory kind, the sum of the amounts used of that kind,
    wrapped to 64 bits, and has an entry for a kind exactly when some
    usage was of that kind. *)
Theorem meter_holds_the_totals (usages : list MemoryUsage) (kind : MemoryKind) :
  read (useAll emptyMeter usages) kind = wrap64 (total kind usages)
  /\ MeterMap.mem kind (useAll emptyMeter usages) = used kind usages.
Proof.
  split.
  - unfold read at 1. rewrite find_useAll.
    destruct (used kind usages) eqn:Hused.
    + unfold read, emptyMeter. rewrite MeterMapFacts.empty_o. reflexivity.
    + unfold emptyMeter. rewrite MeterMapFacts.empty_o.
      rewrite (total_unused kind usages Hused). reflexivity.
  - rewrite MeterMapFacts.mem_find_b, find_useAll.
    destruct (used kind usages); [reflexivity|].
    unfold emptyMeter. rewrite MeterMapFacts.empty_o. reflexivity.
Qed.

(** X26. The order in which usages are reported does not matter: two
    sequences of usages that are permutations of each other leave the
    same entry for every kind, from any meter. *)
Theorem meter_is_order_independent
    (meter : Meter) (usages usages' : list MemoryUsage) (kind : MemoryKind) :
  Permutation usages usages' ->
  MeterMap.find kind (useAll meter usages)
  = MeterMap.find kind (useAll meter usages').
Proof.
  intros H. rewrite !find_useAll.
  rewrite (used_Permutation kind usages usages' H).
  rewrite (total_Permutation kind usages usages' H).
  reflexivity.
Qed.

End MeteringFacts.

(** ** The further properties on sample inputs *)

Lemma parseHexadecimalLocation_succeeds_iff_well_formed_witness :
  exists bytes : list Z, Hex.parseHexadecimalLocation "0xA_B" = Ok bytes.
Proof.
  apply (proj2 (parseHexadecimalLocation_succeeds_iff_well_formed "0xA_B")).
  reflexivity.
Defined.

Lemma parseHexadecimalLocation_address_shape_witness :
  Forall (fun b => 0 <= b < 256) [1; 35]
  /\ List.length [1; 35] = Nat.div2 (S (List.length (digitsOf "0x1_23"))).
Proof.
  exact (parseHexadecimalLocation_address_shape "0x1_23" [1; 35] eq_refl).
Defined.

Lemma parseHexadecimalLocation_panics_witness :
  ((String.length "0xg1" < 2)%nat
   /\ HexDecodeError (InvalidByteError "g") = RuntimeError "slice bounds out of range")
  \/ (exists c : ascii,
         HexDecodeError (InvalidByteError "g") = HexDecodeError (InvalidByteError c)
         /\ In c (digitsOf "0xg1")
         /\ Hex.isHexDigit c = false).
Proof.
  exact (parseHexadecimalLocation_panics "0xg1"
           (HexDecodeError (InvalidByteError "g")) eq_refl).
Defined.

Lemma parseHexadecimalLocation_preserves_value_witness :
  numeralValue (digitsOf "0x1_23") = Some (bytesValue [1; 35]).
Proof.
  exact (parseHexadecimalLocation_preserves_value "0x1_23" [1; 35] eq_refl).
Defined.

(** [access(all) event Foo()]: dispatched after a modifier. *)
Lemma parseDeclaration_dispatches_witness :
  exists (decl : Declaration) (q : ListParser.parser),
    parseDeclaration 1 (ListParser.start Sample.public_event) = Ok (Some decl, q)
    /\ (ProducedBy 1 AccessNotSpecified None
          (skipSpaceAndComments true (ListParser.start Sample.public_event)) decl q
        \/ (isAccessModifierKeyword
              (current (skipSpaceAndComments true
                          (ListParser.start Sample.public_event))) = true
            /\ exists (access : Access) (q1 : ListParser.parser),
                 parseAccess (skipSpaceAndComments true
                                (ListParser.start Sample.public_event))
                 = Ok (access, q1)
                 /\ access <> AccessNotSpecified
                 /\ ProducedBy 1 access
                      (Some (TokenStartPos
                               (current (skipSpaceAndComments true
                                           (ListParser.start Sample.public_event)))))
                      (skipSpaceAndComments true q1) decl q)).
Proof.
  eexists. eexists.
  assert (Hrun : parseDeclaration 1 (ListParser.start Sample.public_event)
                 = Ok (Some _, _)) by (vm_compute; reflexivity).
  split; [exact Hrun|].
  exact (parseDeclaration_dispatches 1 _ _ _ Hrun).
Defined.

(** [let x = y; pub foo] *)
Lemma parseDeclarations_loop_returns_witness :
  exists (ds : list Declaration) (q : ListParser.parser),
    parseDeclarations_loop 4 TokenEOF []
      (ListParser.start Sample.let_with_annotation) = Ok (ds, q)
    /\ (exists parsed : list Declaration, ds = [] ++ parsed)
    /\ (Type_ (current q) = TokenEOF
        \/ Type_ (current q) = TokenEOF
        \/ (isDeclarationKeyword (current q) = false
            /\ isAccessModifierKeyword (current q) = false)).
Proof.
  eexists. eexists.
  assert (Hrun : parseDeclarations_loop 4 TokenEOF []
                   (ListParser.start Sample.let_with_annotation) = Ok (_, _))
    by (vm_compute; reflexivity).
  split; [exact Hrun|].
  exact (parseDeclarations_loop_returns 4 TokenEOF [] _ _ _ Hrun).
Defined.


(** [access(all)] *)
Lemma parseAccess_accepts_witness :
  exists q : ListParser.parser,
    parseAccess (ListParser.start MoreSamples.access_all) = Ok (AccessPublic, q)
    /\ valueIs (Value (current (ListParser.start MoreSamples.access_all)))
         keywordAccess = true.
Proof.
  eexists.
  assert (Hrun : parseAccess (ListParser.start MoreSamples.access_all)
                 = Ok (AccessPublic, _)) by (vm_compute; reflexivity).
  split; [exact Hrun|].
  destruct (parseAccess_accepts _ _ _ Hrun)
    as [(H & _)|[(H & _)|[(H & _)|(H & _)]]];
    first [exact H | discriminate H].
Defined.


(** [let x: T = y] *)
Lemma parseVariableDeclaration_fields_witness :
  exists (d : VariableDeclaration) (q : ListParser.parser),
    parseVariableDeclaration (ListParser.start Sample.let_with_annotation)
      AccessPublic None = Ok (d, q)
    /\ VariableDeclaration_Access d = AccessPublic
    /\ VariableDeclaration_IsConstant d = true.
Proof.
  eexists. eexists.
  assert (Hrun : parseVariableDeclaration
                   (ListParser.start Sample.let_with_annotation)
                   AccessPublic None = Ok (_, _)) by (vm_compute; reflexivity).
  split; [exact Hrun|].
  destruct (parseVariableDeclaration_fields _ _ _ _ _ Hrun) as (Ha & Hc & _).
  split; [exact Ha | exact Hc].
Defined.

(** [let x y] *)
Lemma parseVariableDeclaration_panics_witness :
  exists e : ParseError,
    parseVariableDeclaration (ListParser.start Sample.let_without_transfer)
      AccessNotSpecified None = Panic e
    /\ ((Type_ (current (advance (ListParser.start Sample.let_without_transfer)))
         <> TokenIdentifier
         /\ e = Errorf "expected identifier after start of variable declaration, got %s"
                  [ArgTokenType
                     (Type_ (current
                               (advance (ListParser.start Sample.let_without_transfer))))])
        \/ e = Errorf "expected transfer" []
        \/ tokenToIdentifier
             (current (advance (ListParser.start Sample.let_without_transfer)))
           = Panic e
        \/ (exists r : ListParser.parser, parseTypeAnnotation r = Panic e)
        \/ (exists r : ListParser.parser,
               parseExpression r lowestBindingPower = Panic e)).
Proof.
  eexists.
  assert (Hrun : parseVariableDeclaration
                   (ListParser.start Sample.let_without_transfer)
                   AccessNotSpecified None = Panic _) by (vm_compute; reflexivity).
  split; [exact Hrun|].
  exact (parseVariableDeclaration_panics _ _ _ _ Hrun).
Defined.

(** [var x <- y <-] *)
Lemma second_expression_is_required_witness :
  parseVariableDeclaration
    (ListParser.start MoreSamples.var_missing_second_value)
    AccessNotSpecified None
  = Panic (ExternalError "expected expression").
Proof.
  eapply (second_expression_is_required
            (ListParser.start MoreSamples.var_missing_second_value)
            (advance (advance (ListParser.start MoreSamples.var_missing_second_value)))
            _ AccessNotSpecified None
            (mkIdentifier "x" (mkPosition 5 1 5))).
  - reflexivity.
  - reflexivity.
  - left. split; reflexivity.
  - reflexivity.
  - vm_compute. reflexivity.
  - reflexivity.
  - vm_compute. reflexivity.
Defined.

(** [event Foo()] *)
Lemma parseEventDeclaration_positions_witness :
  exists (d : CompositeDeclaration) (q : ListParser.parser),
    parseEventDeclaration (ListParser.start Sample.plain_event)
      AccessNotSpecified None = Ok (d, q)
    /\ exists (name : string) (parameterList : ParameterList),
         CompositeDeclaration_Identifier d
         = mkIdentifier name
             (TokenStartPos (current (advance (ListParser.start Sample.plain_event))))
         /\ CompositeDeclaration_Range d
            = mkRange (TokenStartPos (current (ListParser.start Sample.plain_event)))
                (EndPos (ParameterList_Range parameterList)).
Proof.
  eexists. eexists.
  assert (Hrun : parseEventDeclaration (ListParser.start Sample.plain_event)
                   AccessNotSpecified None = Ok (_, _)) by (vm_compute; reflexivity).
  split; [exact Hrun|].
  destruct (parseEventDeclaration_positions _ _ _ _ _ Hrun)
    as (name & parameterList & _ & _ & _ & Hid & Hrange & _).
  exists name, parameterList. split; [exact Hid | exact Hrange].
Defined.

(** [event (] *)
Lemma parseEventDeclaration_panics_witness :
  exists e : ParseError,
    parseEventDeclaration (ListParser.start MoreSamples.event_without_name)
      AccessNotSpecified None = Panic e
    /\ ((Type_ (current (advance (ListParser.start MoreSamples.event_without_name)))
         <> TokenIdentifier
         /\ e = Errorf "expected identifier after start of event declaration, got %s"
                  [ArgTokenType
                     (Type_ (current
                               (advance (ListParser.start MoreSamples.event_without_name))))])
        \/ (Type_ (current (advance (ListParser.start MoreSamples.event_without_name)))
            = TokenIdentifier
            /\ (forall s : string,
                   Value (current
                            (advance (ListParser.start MoreSamples.event_without_name)))
                   <> ValueString s)
            /\ e = RuntimeError "interface conversion: interface {} is not string")
        \/ parseParameterList
             (next (advance (ListParser.start MoreSamples.event_without_name)))
           = Panic e).
Proof.
  eexists.
  assert (Hrun : parseEventDeclaration
                   (ListParser.start MoreSamples.event_without_name)
                   AccessNotSpecified None = Panic _) by (vm_compute; reflexivity).
  split; [exact Hrun|].
  exact (parseEventDeclaration_panics _ _ _ _ Hrun).
Defined.

(** [import a, b from "x"] *)
Lemma import_names_in_source_order_witness :
  exists (d : ImportDeclaration) (q : ListParser.parser),
    parseImportDeclaration 4 (ListParser.start MoreSamples.import_two_names)
    = Ok (d, q)
    /\ map Identifier_Identifier (ImportDeclaration_Identifiers d) = ["a"; "b"]
    /\ ImportDeclaration_Location d = Some (StringLocation "x").
Proof.
  eexists. eexists.
  rewrite (import_names_in_source_order 4
             (ListParser.start MoreSamples.import_two_names)
             (advance (advance (advance (advance
                (ListParser.start MoreSamples.import_two_names)))))
             [mkIdentifier "a" (mkPosition 8 1 8);
              mkIdentifier "b" (mkPosition 11 1 11)]).
  - vm_compute. split; [reflexivity|]. split; reflexivity.
  - apply NameMore; try reflexivity.
    apply NameLast; reflexivity.
  - cbn. lia.
Defined.

(** [import 0xA_B] *)
Lemma parseImportDeclaration_shapes_witness :
  exists (d : ImportDeclaration) (q : ListParser.parser),
    parseImportDeclaration 1 (ListParser.start Sample.import_address) = Ok (d, q)
    /\ StartPos (ImportDeclaration_Range d)
       = TokenStartPos (current (ListParser.start Sample.import_address)).
Proof.
  eexists. eexists.
  assert (Hrun : parseImportDeclaration 1 (ListParser.start Sample.import_address)
                 = Ok (_, _)) by (vm_compute; reflexivity).
  split; [exact Hrun|].
  exact (proj1 (parseImportDeclaration_shapes 1 _ _ _ Hrun)).
Defined.

(** [import a,,], [import a, from] and [import a,] *)
Lemma import_rejects_malformed_name_list_witness :
  parseImportDeclaration 1 (ListParser.start MoreSamples.import_double_comma)
  = Panic (Errorf "expected %s or keyword %q, got %s"
             [ArgTokenType TokenIdentifier; ArgString keywordFrom;
              ArgTokenType TokenComma])
  /\ parseImportDeclaration 1 (ListParser.start MoreSamples.import_comma_from)
     = Panic (Errorf "expected %s, got keyword %q"
                [ArgTokenType TokenIdentifier; ArgValue (ValueString keywordFrom)])
  /\ parseImportDeclaration 1 (ListParser.start MoreSamples.import_comma_end)
     = Panic (Errorf "unexpected end in import declaration: expected %s or %s"
                [ArgTokenType TokenIdentifier; ArgTokenType TokenComma]).
Proof.
  split; [|split].
  - exact (proj1 (import_rejects_malformed_name_list 0
                    (ListParser.start MoreSamples.import_double_comma)
                    (mkIdentifier "a" (mkPosition 8 1 8))
                    eq_refl eq_refl eq_refl) eq_refl).
  - exact (proj1 (proj2 (import_rejects_malformed_name_list 0
                    (ListParser.start MoreSamples.import_comma_from)
                    (mkIdentifier "a" (mkPosition 8 1 8))
                    eq_refl eq_refl eq_refl)) eq_refl).
  - exact (proj2 (proj2 (import_rejects_malformed_name_list 0
                    (ListParser.start MoreSamples.import_comma_end)
                    (mkIdentifier "a" (mkPosition 8 1 8))
                    eq_refl eq_refl eq_refl)) eq_refl).
Defined.

(** [import a b] and [import a from b] *)
Lemma import_rejects_identifier_locations_witness :
  parseImportDeclaration 1 (ListParser.start MoreSamples.import_a_b)
  = Panic (Errorf "unexpected identifier in import declaration: got %q, expected %q"
             [ArgValue (ValueString "b"); ArgString keywordFrom])
  /\ parseImportDeclaration 1 (ListParser.start MoreSamples.import_a_from_b)
     = Panic (Errorf
                "unexpected token in import declaration: got %s, expected string, address, or identifier"
                [ArgTokenType TokenIdentifier]).
Proof.
  split.
  - exact (proj1 (import_rejects_identifier_locations 1
                    (ListParser.start MoreSamples.import_a_b)
                    (mkIdentifier "a" (mkPosition 8 1 8))
                    eq_refl eq_refl eq_refl) eq_refl).
  - exact (proj2 (import_rejects_identifier_locations 1
                    (ListParser.start MoreSamples.import_a_from_b)
                    (mkIdentifier "a" (mkPosition 8 1 8))
                    eq_refl eq_refl eq_refl) eq_refl eq_refl).
Defined.

(** [import] and [import a from] *)
Lemma import_rejects_truncation_witness :
  parseImportDeclaration 1 (ListParser.start MoreSamples.import_only)
  = Panic (Errorf
             "unexpected end in import declaration: expected string, address, or identifier"
             [])
  /\ parseImportDeclaration 1 (ListParser.start MoreSamples.import_a_from)
     = Panic (Errorf
                "unexpected token in import declaration: got %s, expected string, address, or identifier"
                [ArgTokenType TokenEOF]).
Proof.
  split.
  - exact (proj1 (import_rejects_truncation 1
                    (ListParser.start MoreSamples.import_only)) eq_refl).
  - exact (proj2 (import_rejects_truncation 1
                    (ListParser.start MoreSamples.import_a_from))
             (mkIdentifier "a" (mkPosition 8 1 8))
             eq_refl eq_refl eq_refl eq_refl).
Defined.

(** [import "x"] *)
Lemma import_string_location_reports_diagnostics_witness :
  exists (range : Range) (pos : Position) (q : ListParser.parser),
    parseImportDeclaration 1 (ListParser.start MoreSamples.import_string)
    = Ok (mkImportDeclaration [] (Some (StringLocation "x")) range pos, q).
Proof.
  do 3 eexists.
  rewrite (import_string_location_reports_diagnostics 1
             (ListParser.start MoreSamples.import_string) "x");
    reflexivity.
Defined.


(** [pub import 0x1] *)
Lemma import_discards_access_modifier_witness :
  exists (range : Range) (pos : Position) (q : ListParser.parser),
    parseDeclaration 1 (ListParser.start MoreSamples.pub_import)
    = Ok (Some (ImportDecl
                  (mkImportDeclaration [] (Some (AddressLocation [1])) range pos)),
          q).
Proof.
  do 3 eexists.
  rewrite (import_discards_access_modifier 1
             (ListParser.start MoreSamples.pub_import)
             (advance (ListParser.start MoreSamples.pub_import))
             AccessPublic);
    [vm_compute | ..]; reflexivity.
Defined.

(** Two usages of one kind and one of another, in two orders. *)
Lemma meter_is_order_independent_witness :
  MeterMap.find 1%N
    (Metering.useAll Metering.emptyMeter
       [Metering.mkMemoryUsage 1%N 4; Metering.mkMemoryUsage 2%N 3;
        Metering.mkMemoryUsage 1%N 2])
  = MeterMap.find 1%N
      (Metering.useAll Metering.emptyMeter
         [Metering.mkMemoryUsage 2%N 3; Metering.mkMemoryUsage 1%N 4;
          Metering.mkMemoryUsage 1%N 2]).
Proof.
  apply MeteringFacts.meter_is_order_independent.
  apply perm_swap.
Defined.
